(** * EnvHolster: rotation over environment keys (src/index.ts)

    A shallow embedding of [src/index.ts].  The module keeps three
    cursor stores (a process-wide object, a JSON file, a MongoDB
    collection); every function of the source that touches one of them
    is written here in a state-and-exception monad over an explicit
    [World], and the public [getNextEnvKey] is the only place where a
    thrown error is caught. *)

From Stdlib Require Import ZArith Ascii String List Lia Bool.
From stdpp Require Import base option gmap strings list fin_maps pretty.

Local Open Scope Z_scope.

(** ** JavaScript values held in an [index] slot

    [cache.index], [memoryCaches[k].index] and [cacheDoc.index] are read
    from stores the caller may have seeded, so they are not always
    numbers.  [Num z] is a double that holds the integer [z]; the
    arithmetic below is exact while [|z| < 2^53].  [-0] is identified
    with [Num 0]: the source only prints it, indexes with it and adds
    one to it. *)

Inductive jsval : Type :=
  | undefined
  | null
  | Num (z : Z)
  | NaN.

Definition MAX_SAFE_INTEGER : Z := 2 ^ 53 - 1.

(** [envKeys[i]]: an array read; anything but an in-range integer index
    names no element and yields [undefined] (here [None]). *)
Definition arr_get (envKeys : list string) (i : jsval) : option string :=
  match i with
  | Num z => if 0 <=? z then nth_error envKeys (Z.to_nat z) else None
  | _ => None
  end.

(** [(i + 1) % len]: [undefined + 1] is [NaN], [null + 1] is [1], and [%]
    is the truncating remainder, [NaN] for a zero divisor.  The source
    computes in doubles, where [i + 1] is rounded beyond the safe
    integers: the value is that of the source for
    [|i| <= MAX_SAFE_INTEGER], and statements that name it carry this
    bound ([within_safe_integers]) unless [i] is bounded already. *)
Definition js_succ_mod (i : jsval) (len : Z) : jsval :=
  match i with
  | Num z => if len =? 0 then NaN else Num (Z.rem (z + 1) len)
  | null => if len =? 0 then NaN else Num (Z.rem 1 len)
  | undefined | NaN => NaN
  end.

(** Template-literal conversion [`${i}`]. *)
Definition js_show (i : jsval) : string :=
  match i with
  | undefined => "undefined"
  | null => "null"
  | Num z => pretty z
  | NaN => "NaN"
  end.

(** ** Interfaces of the source *)

Record EnvKeyResult : Type := mkResult {
  key : option string;      (* [None] is [undefined] *)
  index : jsval;
  message : string
}.

Inductive Storage : Type := DISK | MEMORY | DATABASE.

Record GetNextEnvKeyParams : Type := mkParams {
  baseEnvName : string;
  storage : option Storage  (* [storage?]: [None] when omitted *)
}.

(** ** The configuration source, [process.env]

    An object whose own keys enumerate in insertion order: an association
    list, read by name. *)

Definition Env : Type := list (string * string).

Fixpoint env_get (env : Env) (k : string) : option string :=
  match env with
  | [] => None
  | (k', v) :: rest => if String.eqb k' k then Some v else env_get rest k
  end.

Definition Object_keys (env : Env) : list string := map fst env.

(** [Boolean(v)] for a value that is a string or [undefined]. *)
Definition truthy (v : option string) : bool :=
  match v with
  | Some s => negb (String.eqb s "")
  | None => false
  end.

Definition startsWith (envKey baseEnvName : string) : bool :=
  String.prefix baseEnvName envKey.

Definition getEnvKeys (env : Env) (baseEnvName : string) : list string :=
  omap (fun v => v)
    (List.filter truthy
      (map (fun envKey => env_get env envKey)
        (List.filter (fun envKey => startsWith envKey baseEnvName) (Object_keys env)))).

(** ** The world the module runs in

    Everything the source reads or writes outside its own locals: the
    configuration, the module-level bindings ([dbUsername] ... [db],
    [memoryCaches]), the directory of cursor files, the remote
    [fileIndex] collection, and what the outside answers to each
    connection attempt and each remote operation. *)

(** What [JSON.parse] makes of a file's text.  Cursor files are taken up
    to this reading: text that is not JSON, the text [null], or an
    object, of which only the [index] property matters ([undefined]
    when it has none).  An [index] that is a fraction, a string or a
    nested value, and a top-level array or primitive, are not
    represented. *)
Inductive json : Type :=
  | JNull
  | JObject (idx : jsval).

Inductive fileText : Type :=
  | NotJson
  | Json (v : json).

Record fnode : Type := mkNode {
  node_text : fileText;
  node_readable : bool;
  node_writable : bool
}.

Inductive MongoClient : Type := mkMongoClient.

Inductive event : Type :=
  | EvReadFile (path : string)
  | EvWriteFile (path : string) (text : fileText)
  | EvConnect
  | EvSleep (ms : Z)
  | EvFindOne (name : string)
  | EvInsertOne (name : string) (idx : jsval)
  | EvUpdateOne (name : string) (idx : jsval).

Record World : Type := mkWorld {
  env : Env;                          (* process.env *)
  dirname : string;                   (* __dirname *)
  dbUsername : string;
  dbPassword : string;
  dbName : string;
  dbClusterName : string;
  client : option MongoClient;        (* let client = null *)
  db : option string;                 (* let db = null; a Db by its name *)
  memoryCaches : gmap string jsval;   (* own entries, by their [index] *)
  files : gmap string fnode;
  dir_writable : bool;                (* may a new file be created *)
  fileIndex : gmap string jsval;      (* remote documents, name to index *)
  connect_fault : nat -> option string; (* error of the k-th connection attempt *)
  connects : nat;                     (* attempts made so far *)
  remote_fault : nat -> option string;  (* error of the k-th remote operation *)
  remote_ops : nat;                   (* operations issued so far *)
  trace : list event                  (* effects so far, oldest first *)
}.

Definition set_client (c : option MongoClient) (w : World) : World :=
  mkWorld (env w) (dirname w) (dbUsername w) (dbPassword w) (dbName w) (dbClusterName w)
    c (db w) (memoryCaches w) (files w) (dir_writable w) (fileIndex w)
    (connect_fault w) (connects w) (remote_fault w) (remote_ops w) (trace w).

Definition set_db (d : option string) (w : World) : World :=
  mkWorld (env w) (dirname w) (dbUsername w) (dbPassword w) (dbName w) (dbClusterName w)
    (client w) d (memoryCaches w) (files w) (dir_writable w) (fileIndex w)
    (connect_fault w) (connects w) (remote_fault w) (remote_ops w) (trace w).

Definition set_memoryCaches (m : gmap string jsval) (w : World) : World :=
  mkWorld (env w) (dirname w) (dbUsername w) (dbPassword w) (dbName w) (dbClusterName w)
    (client w) (db w) m (files w) (dir_writable w) (fileIndex w)
    (connect_fault w) (connects w) (remote_fault w) (remote_ops w) (trace w).

Definition set_files (f : gmap string fnode) (w : World) : World :=
  mkWorld (env w) (dirname w) (dbUsername w) (dbPassword w) (dbName w) (dbClusterName w)
    (client w) (db w) (memoryCaches w) f (dir_writable w) (fileIndex w)
    (connect_fault w) (connects w) (remote_fault w) (remote_ops w) (trace w).

Definition set_fileIndex (c : gmap string jsval) (w : World) : World :=
  mkWorld (env w) (dirname w) (dbUsername w) (dbPassword w) (dbName w) (dbClusterName w)
    (client w) (db w) (memoryCaches w) (files w) (dir_writable w) c
    (connect_fault w) (connects w) (remote_fault w) (remote_ops w) (trace w).

Definition count_connect (w : World) : World :=
  mkWorld (env w) (dirname w) (dbUsername w) (dbPassword w) (dbName w) (dbClusterName w)
    (client w) (db w) (memoryCaches w) (files w) (dir_writable w) (fileIndex w)
    (connect_fault w) (S (connects w)) (remote_fault w) (remote_ops w) (trace w).

Definition count_remote_op (w : World) : World :=
  mkWorld (env w) (dirname w) (dbUsername w) (dbPassword w) (dbName w) (dbClusterName w)
    (client w) (db w) (memoryCaches w) (files w) (dir_writable w) (fileIndex w)
    (connect_fault w) (connects w) (remote_fault w) (S (remote_ops w)) (trace w).

Definition log (e : event) (w : World) : World :=
  mkWorld (env w) (dirname w) (dbUsername w) (dbPassword w) (dbName w) (dbClusterName w)
    (client w) (db w) (memoryCaches w) (files w) (dir_writable w) (fileIndex w)
    (connect_fault w) (connects w) (remote_fault w) (remote_ops w) (trace w ++ [e]).

(** ** Computations that may throw *)

Inductive outcome (A : Type) : Type :=
  | Ok (a : A)
  | Throw (msg : string).   (* an [Error], by its [message] *)
Arguments Ok {A} a.
Arguments Throw {A} msg.

Definition M (A : Type) : Type := World -> World * outcome A.

Definition ret {A} (a : A) : M A := fun w => (w, Ok a).

Definition throw {A} (msg : string) : M A := fun w => (w, Throw msg).

Definition bind {A B} (m : M A) (k : A -> M B) : M B :=
  fun w => match m w with
           | (w', Ok a) => k a w'
           | (w', Throw msg) => (w', Throw msg)
           end.

Definition try_catch {A} (m : M A) (handler : string -> M A) : M A :=
  fun w => match m w with
           | (w', Ok a) => (w', Ok a)
           | (w', Throw msg) => handler msg w'
           end.

Definition gets {A} (f : World -> A) : M A := fun w => (w, Ok (f w)).

Definition modify (f : World -> World) : M unit := fun w => (f w, Ok tt).

Notation "x <- m ;; k" := (bind m (fun x => k))
  (at level 20, m at level 99, k at level 200, only parsing).
Notation "m ;; k" := (bind m (fun _ => k))
  (at level 100, k at level 200, right associativity, only parsing).

(** ** Collaborators: file system, timers, MongoDB driver *)

Definition readFile (path : string) : M fileText := fun w =>
  let w1 := log (EvReadFile path) w in
  match files w !! path with
  | None =>
      (w1, Throw ("ENOENT: no such file or directory, open '" +:+ path +:+ "'"))
  | Some nd =>
      if node_readable nd then (w1, Ok (node_text nd))
      else (w1, Throw ("EACCES: permission denied, open '" +:+ path +:+ "'"))
  end.

Definition writeFile (path : string) (text : fileText) : M unit := fun w =>
  let w1 := log (EvWriteFile path text) w in
  let denied := Throw ("EACCES: permission denied, open '" +:+ path +:+ "'") in
  match files w !! path with
  | None =>
      if dir_writable w
      then (set_files (<[path := mkNode text true true]> (files w)) w1, Ok tt)
      else (w1, denied)
  | Some nd =>
      if node_writable nd
      then (set_files (<[path := mkNode text (node_readable nd) true]> (files w)) w1, Ok tt)
      else (w1, denied)
  end.

Definition JSON_parse (text : fileText) : M json :=
  match text with
  | NotJson => throw "Unexpected token in JSON"
  | Json v => ret v
  end.

(** [JSON.stringify(cache, null, 2)], by what the text parses back to:
    a [NaN] is written as [null]. *)
Definition JSON_stringify (cache : json) : fileText :=
  match cache with
  | JObject NaN => Json (JObject null)
  | _ => Json cache
  end.

(** [cache.index] *)
Definition get_index (cache : json) : M jsval :=
  match cache with
  | JNull => throw "Cannot read properties of null (reading 'index')"
  | JObject i => ret i
  end.

(** [path.join(dir, file)] for a [file] without path separators, where
    it only appends the name to the directory.  For other names
    [path.join] also normalises separators and [..] segments, which is
    not represented: statements that compare the cursor files of two
    prefixes take the prefixes to be plain names ([plain_name]). *)
Definition path_join (dir file : string) : string := dir +:+ "/" +:+ file.

Definition setTimeout (ms : Z) : M unit := modify (log (EvSleep ms)).

(** [new MongoClient(uri); await client.connect()] *)
Definition MongoClient_connect : M MongoClient := fun w =>
  let w1 := count_connect (log EvConnect w) in
  match connect_fault w (connects w) with
  | Some msg => (w1, Throw msg)
  | None => (w1, Ok mkMongoClient)
  end.

Definition remote_op {A} (e : event) (run : World -> World * A) : M A := fun w =>
  let w1 := count_remote_op (log e w) in
  match remote_fault w (remote_ops w) with
  | Some msg => (w1, Throw msg)
  | None => let '(w2, a) := run w1 in (w2, Ok a)
  end.

Definition findOne (name : string) : M (option jsval) :=
  remote_op (EvFindOne name) (fun w => (w, fileIndex w !! name)).

Definition insertOne (name : string) (idx : jsval) : M unit :=
  remote_op (EvInsertOne name idx)
    (fun w => (set_fileIndex (<[name := idx]> (fileIndex w)) w, tt)).

(** [updateOne(filter, { $set: { index } })] without [upsert]: a filter
    that matches nothing changes nothing. *)
Definition updateOne (name : string) (idx : jsval) : M unit :=
  remote_op (EvUpdateOne name idx)
    (fun w => match fileIndex w !! name with
              | Some _ => (set_fileIndex (<[name := idx]> (fileIndex w)) w, tt)
              | None => (w, tt)
              end).

(** ** Module-level bindings *)

(** The destructuring of [process.env] with defaults: a default is taken
    only for a name that is not set. *)
Definition loadModule (e : Env) (dir : string) (fs : gmap string fnode)
    (creatable : bool) (docs : gmap string jsval)
    (cf rf : nat -> option string) : World :=
  mkWorld e dir
    (default "" (env_get e "DB_USERNAME"))
    (default "" (env_get e "DB_PASSWORD"))
    (default "defaultDbName" (env_get e "DB_NAME"))
    (default "defaultClusterName" (env_get e "DB_CLUSTER"))
    None None ∅ fs creatable docs cf 0%nat rf 0%nat [].

(** [memoryCaches] is the object literal [{}]: besides its own entries a
    lookup finds what [Object.prototype] provides, an object with no
    [index] of its own. *)
Definition Object_prototype_names : list string :=
  ["constructor"; "__defineGetter__"; "__defineSetter__"; "hasOwnProperty";
   "__lookupGetter__"; "__lookupSetter__"; "isPrototypeOf";
   "propertyIsEnumerable"; "toString"; "valueOf"; "__proto__"; "toLocaleString"].

Definition memoryCaches_get (m : gmap string jsval) (k : string) : option jsval :=
  match m !! k with
  | Some i => Some i
  | None => if bool_decide (k ∈ Object_prototype_names) then Some undefined else None
  end.

(** [memoryCaches[k].index] *)
Definition memoryCaches_index (k : string) : M jsval := fun w =>
  match memoryCaches_get (memoryCaches w) k with
  | Some i => (w, Ok i)
  | None => (w, Throw "Cannot read properties of undefined (reading 'index')")
  end.

(** [memoryCaches[k].index = i].  For an entry of [memoryCaches] this
    updates the entry.  For a name inherited from [Object.prototype]
    the source sets [index] on the inherited member, an object outside
    [memoryCaches]; a later read of [memoryCaches[k].index] finds [i]
    as it does here, where [i] is kept under [k].  For [__proto__] the
    member is [Object.prototype] itself, whose [index] every object
    without one then inherits: this is not represented, and statements
    about where the index is kept, or about other records, exclude
    memory calls for inherited names ([inherited_name]). *)
Definition memoryCaches_set_index (k : string) (i : jsval) : M unit :=
  modify (fun w => set_memoryCaches (<[k := i]> (memoryCaches w)) w).

(** ** Utility functions for MongoDB connection *)

(** The [for] loop of [connectWithRetry], one iteration per unit of
    [iterations]; the [uri] is the same for every attempt and is what
    [connect_fault] answers for. *)
Fixpoint connectLoop (iterations : nat) (attempt attempts : Z) : M MongoClient :=
  match iterations with
  | O => throw "Connection attempts exceeded."
  | S rest =>
      try_catch MongoClient_connect
        (fun error =>
           if attempt <? attempts
           then setTimeout (1000 * attempt) ;; connectLoop rest (attempt + 1) attempts
           else throw error)
  end.

Definition connectWithRetry (attempts : Z) : M MongoClient :=
  connectLoop (Z.to_nat attempts) 1 attempts.

Definition connectToMongo : M (option string) :=
  c <- gets client ;;
  (match c with
   | None =>
       c' <- connectWithRetry 5 ;;
       modify (set_client (Some c')) ;;
       name <- gets dbName ;;
       modify (set_db (Some name))
   | Some _ => ret tt
   end) ;;
  gets db.

Definition getFileIndexCollection : M unit :=
  d <- connectToMongo ;;
  match d with
  | Some _ => ret tt
  | None => throw "Cannot read properties of null (reading 'collection')"
  end.

(** ** Environment keys handling functions *)

Definition len (envKeys : list string) : Z := Z.of_nat (length envKeys).

Definition one_key_message : string :=
  "Successfully retrieved the key. Only one key available, index remains 0.".

Definition handleDiskStorage (envKeys : list string) (cacheFilePath : string)
    : M EnvKeyResult :=
  cache <- try_catch
             (cacheFile <- readFile cacheFilePath ;; JSON_parse cacheFile)
             (fun _ => ret (JObject (Num 0))) ;;
  i <- get_index cache ;;
  let key := arr_get envKeys i in
  if 1 <? len envKeys then
    let i' := js_succ_mod i (len envKeys) in
    writeFile cacheFilePath (JSON_stringify (JObject i')) ;;
    ret (mkResult key i'
      ("Successfully retrieved the key and updated the file cache. Current index: "
         +:+ js_show i'))
  else
    ret (mkResult key i one_key_message).

Definition handleMemoryStorage (envKeys : list string) (baseEnvName : string)
    : M EnvKeyResult :=
  c <- gets (fun w => memoryCaches_get (memoryCaches w) baseEnvName) ;;
  (match c with
   | None => memoryCaches_set_index baseEnvName (Num 0)
   | Some _ => ret tt
   end) ;;
  i <- memoryCaches_index baseEnvName ;;
  let key := arr_get envKeys i in
  (if 1 <? len envKeys
   then memoryCaches_set_index baseEnvName (js_succ_mod i (len envKeys))
   else ret tt) ;;
  i' <- memoryCaches_index baseEnvName ;;
  let message :=
    if 1 <? len envKeys
    then "Successfully retrieved the key and updated the memory cache. Current index: "
           +:+ js_show i'
    else one_key_message in
  ret (mkResult key i' message).

Definition credentials_message : string :=
  "DB_USERNAME, DB_PASSWORD, and DB_NAME environment variables must be set for database storage.".

Definition handleDatabaseStorage (envKeys : list string) (baseEnvName : string)
    : M EnvKeyResult :=
  u <- gets dbUsername ;;
  p <- gets dbPassword ;;
  d <- gets dbName ;;
  if String.eqb u "" || String.eqb p "" || String.eqb d "" then
    throw credentials_message
  else
    getFileIndexCollection ;;
    let name := "envCache_" +:+ baseEnvName in
    cacheDoc <- findOne name ;;
    i <- (match cacheDoc with
          | None => insertOne name (Num 0) ;; ret (Num 0)
          | Some i => ret i
          end) ;;
    let key := arr_get envKeys i in
    if 1 <? len envKeys then
      let i' := js_succ_mod i (len envKeys) in
      updateOne name i' ;;
      ret (mkResult key i'
        ("Successfully retrieved the key and updated the database cache. Current index: "
           +:+ js_show i'))
    else
      ret (mkResult key (Num 0) one_key_message).

Definition cacheFilePath (dir baseEnvName : string) : string :=
  path_join dir ("env_cache_" +:+ baseEnvName +:+ ".json").

(** The body of the [try] block of [getNextEnvKey]. *)
Definition getNextEnvKey_try (params : GetNextEnvKeyParams) : M EnvKeyResult :=
  let baseEnvName := baseEnvName params in
  let storage := default DATABASE (storage params) in
  e <- gets env ;;
  let envKeys := getEnvKeys e baseEnvName in
  if len envKeys =? 0 then
    throw ("No environment variables found with base name " +:+ baseEnvName +:+ ".")
  else if len envKeys =? 1 then
    ret (mkResult (arr_get envKeys (Num 0)) (Num 0)
           "Only one key available, using key with index 0.")
  else
    dir <- gets dirname ;;
    let path := cacheFilePath dir baseEnvName in
    match storage with
    | DATABASE => handleDatabaseStorage envKeys baseEnvName
    | MEMORY => handleMemoryStorage envKeys baseEnvName
    | DISK => handleDiskStorage envKeys path
    end.

Definition error_result (msg : string) : EnvKeyResult :=
  mkResult (Some "") (Num 0) ("Error: " +:+ msg).

(** [getNextEnvKey] always resolves: its [catch] turns every thrown error
    into a result. *)
Definition getNextEnvKey (params : GetNextEnvKeyParams) (w : World)
    : World * EnvKeyResult :=
  match getNextEnvKey_try params w with
  | (w', Ok result) => (w', result)
  | (w', Throw msg) => (w', error_result msg)
  end.


(** ** Specification-side definitions *)

(** The Key Set Resolver in the words of the specification: the values of
    the entries whose name starts with the prefix, in enumeration order,
    empty values dropped. *)
Definition resolve_spec (e : Env) (prefix : string) : list string :=
  map snd
    (List.filter (fun entry => startsWith (fst entry) prefix && negb (String.eqb (snd entry) ""))
       e).

(** Consecutive calls with the same parameters. *)
Fixpoint calls (m : nat) (params : GetNextEnvKeyParams) (w : World)
    : World * list EnvKeyResult :=
  match m with
  | O => (w, [])
  | S m' =>
      let '(w1, r) := getNextEnvKey params w in
      let '(w2, rs) := calls m' params w1 in
      (w2, r :: rs)
  end.

(** Calls with varying parameters, keeping the last world. *)
Fixpoint run (ps : list GetNextEnvKeyParams) (w : World) : World :=
  match ps with
  | [] => w
  | p :: rest => run rest (fst (getNextEnvKey p w))
  end.

(** The record a read of the cursor of [baseEnvName] finds in a store,
    if it finds one. *)
Definition store_record (w : World) (s : Storage) (baseEnvName : string)
    : option jsval :=
  match s with
  | MEMORY => memoryCaches_get (memoryCaches w) baseEnvName
  | DISK =>
      match files w !! cacheFilePath (dirname w) baseEnvName with
      | Some (mkNode (Json (JObject i)) true _) => Some i
      | _ => None
      end
  | DATABASE => fileIndex w !! ("envCache_" +:+ baseEnvName)
  end.

(** The index a call starts from: that of the record, [0] without one. *)
Definition cursor (w : World) (s : Storage) (baseEnvName : string) : jsval :=
  default (Num 0) (store_record w s baseEnvName).

(** A connection is cached, or one of the next five attempts succeeds. *)
Definition connection_ready (w : World) : Prop :=
  match client w with
  | Some _ => db w <> None
  | None =>
      exists j : nat, (j < 5)%nat
        /\ (forall i : nat, (i < j)%nat -> connect_fault w (connects w + i)%nat <> None)
        /\ connect_fault w (connects w + j)%nat = None
  end.

(** The store answers: the file can be read (or is absent) and written,
    the credentials are set and the remote side is reachable and sound. *)
Definition store_ready (w : World) (s : Storage) (baseEnvName : string) : Prop :=
  match s with
  | MEMORY => True
  | DISK =>
      match files w !! cacheFilePath (dirname w) baseEnvName with
      | None => dir_writable w = true
      | Some nd =>
          node_readable nd = true /\ node_writable nd = true
          /\ node_text nd <> Json JNull
      end
  | DATABASE =>
      dbUsername w <> "" /\ dbPassword w <> "" /\ dbName w <> ""
      /\ connection_ready w
      /\ forall k : nat, (remote_ops w <= k)%nat -> remote_fault w k = None
  end.

Definition updated_message (s : Storage) : string :=
  match s with
  | DISK => "Successfully retrieved the key and updated the file cache. Current index: "
  | MEMORY => "Successfully retrieved the key and updated the memory cache. Current index: "
  | DATABASE => "Successfully retrieved the key and updated the database cache. Current index: "
  end.

(** What a call that starts from index [i] over more than one key
    returns: the key at [i], with the index that follows it. *)
Definition served (s : Storage) (envKeys : list string) (i : Z) : EnvKeyResult :=
  let next := Z.rem (i + 1) (len envKeys) in
  mkResult (arr_get envKeys (Num i)) (Num next) (updated_message s +:+ pretty next).

(** What the [try] block of [handleDiskStorage] leaves in [cache]. *)
Definition disk_cache (w : World) (path : string) : json :=
  match files w !! path with
  | Some (mkNode (Json v) true _) => v
  | _ => JObject (Num 0)
  end.

(** The result the specification expects of the [k]-th consecutive call
    ([k] from 1) on a store that started without a record. *)
Definition expected_call (s : Storage) (envKeys : list string) (k : Z) : EnvKeyResult :=
  let n := len envKeys in
  mkResult (nth_error envKeys (Z.to_nat ((k - 1) mod n)))
           (Num (k mod n))
           (updated_message s +:+ pretty (k mod n)).

(** The [try] block of [handleDiskStorage] ends in its [catch]: the file
    is missing, cannot be read, or does not hold JSON. *)
Definition read_or_parse_fails (w : World) (path : string) : Prop :=
  match files w !! path with
  | None => True
  | Some nd => node_readable nd = false \/ node_text nd = NotJson
  end.

Definition write_permitted (w : World) (path : string) : Prop :=
  match files w !! path with
  | None => dir_writable w = true
  | Some nd => node_writable nd = true
  end.

(** The cursor invariant of the data model. *)
Definition in_range (n : Z) (i : jsval) : Prop :=
  exists z, i = Num z /\ 0 <= z < n.

Definition cursors_in_range (w : World) : Prop :=
  forall (s : Storage) (q : string) (i : jsval),
    1 < len (getEnvKeys (env w) q) ->
    store_record w s q = Some i ->
    in_range (len (getEnvKeys (env w) q)) i.

(** The world after [k] more connection attempts that left [evs]. *)
Definition after_connects (k : nat) (evs : list event) (w : World) : World :=
  mkWorld (env w) (dirname w) (dbUsername w) (dbPassword w) (dbName w) (dbClusterName w)
    (client w) (db w) (memoryCaches w) (files w) (dir_writable w) (fileIndex w)
    (connect_fault w) (connects w + k)%nat (remote_fault w) (remote_ops w)
    (trace w ++ evs).

(** [j] failed attempts numbered from [attempt], each followed by its
    delay of [1000 * attempt] milliseconds. *)
Fixpoint backoff (j : nat) (attempt : Z) : list event :=
  match j with
  | O => []
  | S j' => EvConnect :: EvSleep (1000 * attempt) :: backoff j' (attempt + 1)
  end.

Definition delays (evs : list event) : list Z :=
  omap (fun e => match e with EvSleep ms => Some ms | _ => None end) evs.

(** The reading of the retry schedule with a delay after each of the
    five attempts. *)
Definition delays_through_fifth : list Z := map (fun k => 1000 * k) [1; 2; 3; 4; 5].

(** The failures named by the specification, each with the message of
    the error thrown inside [getNextEnvKey]. *)
Inductive InternalFailure (w : World) (p : GetNextEnvKeyParams) : string -> Prop :=
  | NoCandidates :
      getEnvKeys (env w) (baseEnvName p) = [] ->
      InternalFailure w p
        ("No environment variables found with base name " +:+ baseEnvName p +:+ ".")
  | MissingCredentials :
      1 < len (getEnvKeys (env w) (baseEnvName p)) ->
      default DATABASE (storage p) = DATABASE ->
      dbUsername w = "" \/ dbPassword w = "" \/ dbName w = "" ->
      InternalFailure w p credentials_message
  | ConnectionFailure (msg : string) :
      1 < len (getEnvKeys (env w) (baseEnvName p)) ->
      default DATABASE (storage p) = DATABASE ->
      dbUsername w <> "" -> dbPassword w <> "" -> dbName w <> "" ->
      client w = None ->
      (forall i : nat, (i < 4)%nat -> connect_fault w (connects w + i)%nat <> None) ->
      connect_fault w (connects w + 4)%nat = Some msg ->
      InternalFailure w p msg
  | RemoteOperationFailure (msg : string) :
      1 < len (getEnvKeys (env w) (baseEnvName p)) ->
      default DATABASE (storage p) = DATABASE ->
      dbUsername w <> "" -> dbPassword w <> "" -> dbName w <> "" ->
      client w <> None -> db w <> None ->
      remote_fault w (remote_ops w) = Some msg ->
      InternalFailure w p msg
  | FileWriteFailure :
      1 < len (getEnvKeys (env w) (baseEnvName p)) ->
      default DATABASE (storage p) = DISK ->
      files w !! cacheFilePath (dirname w) (baseEnvName p) = None ->
      dir_writable w = false ->
      InternalFailure w p
        ("EACCES: permission denied, open '"
           +:+ cacheFilePath (dirname w) (baseEnvName p) +:+ "'").

(** The store of [s] holds [i] for [baseEnvName] when the call is over:
    as an own entry of [memoryCaches] (which is where the source puts it
    for a prefix that is not an inherited name), as the text of the
    cursor file, as the document of the remote collection. *)
Definition persisted (w : World) (s : Storage) (baseEnvName : string) (i : jsval) : Prop :=
  match s with
  | MEMORY => memoryCaches w !! baseEnvName = Some i
  | DISK =>
      exists nd, files w !! cacheFilePath (dirname w) baseEnvName = Some nd
                 /\ node_text nd = JSON_stringify (JObject i)
  | DATABASE => fileIndex w !! ("envCache_" +:+ baseEnvName) = Some i
  end.

(** A world that differs from [w] at most in its files and its trace. *)
Definition with_files_trace (f : gmap string fnode) (t : list event) (w : World) : World :=
  mkWorld (env w) (dirname w) (dbUsername w) (dbPassword w) (dbName w) (dbClusterName w)
    (client w) (db w) (memoryCaches w) f (dir_writable w) (fileIndex w)
    (connect_fault w) (connects w) (remote_fault w) (remote_ops w) t.

(** A world that differs from [w] at most in the remote documents, the
    count of remote operations and its trace. *)
Definition with_remote (c : gmap string jsval) (ops : nat) (t : list event) (w : World)
    : World :=
  mkWorld (env w) (dirname w) (dbUsername w) (dbPassword w) (dbName w) (dbClusterName w)
    (client w) (db w) (memoryCaches w) (files w) (dir_writable w) c
    (connect_fault w) (connects w) (remote_fault w) ops t.

Definition sum_Z (l : list Z) : Z := fold_right Z.add 0 l.

(** The values of a configuration that [Boolean] keeps. *)
Definition nonempty_values (e : Env) : list string :=
  map snd (List.filter (fun entry => negb (String.eqb (snd entry) "")) e).

(** How a caller tells a failure: the message of the result starts with
    ["Error: "]. *)
Definition is_error (r : EnvKeyResult) : bool := String.prefix "Error: " (message r).

(** A prefix without a path separator: [path.join] then only appends
    the file name to the directory. *)
Definition plain_name (q : string) : bool :=
  forallb (fun c => negb (Ascii.eqb c "/"%char) && negb (Ascii.eqb c "\"%char))
    (list_ascii_of_string q).

(** A prefix that names a member of [Object.prototype]:
    [memoryCaches[q]] is then that member, an object that every object
    of the process inherits from or shares, and not an entry of
    [memoryCaches]. *)
Definition inherited_name (q : string) : bool :=
  bool_decide (q ∈ Object_prototype_names).

(** [i + 1] is exact in double precision: [i] is not a number beyond the
    safe integers. *)
Definition within_safe_integers (i : jsval) : bool :=
  match i with
  | Num z => (- MAX_SAFE_INTEGER <=? z) && (z <=? MAX_SAFE_INTEGER)
  | _ => true
  end.

(** What a store gives back for an index written to it: a cursor file
    cannot hold [NaN], which [JSON.stringify] writes as [null]. *)
Definition stored_as (s : Storage) (i : jsval) : jsval :=
  match s, i with
  | DISK, NaN => null
  | _, _ => i
  end.

(** The remote operations of one call of [handleDatabaseStorage] over
    more than one key, in the order the source issues them.  The index
    sent by [updateOne] is the one of the source where the document
    holds no number beyond the safe integers. *)
Definition remote_plan (envKeys : list string) (baseEnvName : string) (w : World)
    : list event :=
  let name := "envCache_" +:+ baseEnvName in
  match fileIndex w !! name with
  | Some i => [EvFindOne name; EvUpdateOne name (js_succ_mod i (len envKeys))]
  | None =>
      [EvFindOne name; EvInsertOne name (Num 0);
       EvUpdateOne name (js_succ_mod (Num 0) (len envKeys))]
  end.

(** What one call may cost: connection attempts, remote operations,
    milliseconds of delay. *)
Definition within_budget (w w' : World) : Prop :=
  (connects w' <= connects w + 5)%nat
  /\ (remote_ops w' <= remote_ops w + 3)%nat
  /\ sum_Z (delays (trace w')) <= sum_Z (delays (trace w)) + 10000.

(** * Key Set Resolver *)

Lemma env_get_NoDup (e : Env) (k v : string) :
  NoDup (Object_keys e) -> In (k, v) e -> env_get e k = Some v.
Proof.
  induction e as [|[k' v'] e IH]; simpl; intros Hnd Hin; [contradiction|].
  apply NoDup_cons in Hnd as [Hk' Hnd].
  destruct Hin as [Heq|Hin].
  - injection Heq as -> ->. by rewrite String.eqb_refl.
  - destruct (String.eqb_spec k' k) as [->|Hne]; [|by apply IH].
    exfalso. apply Hk'. apply list_elem_of_In.
    change k with (fst (k, v)). by apply in_map.
Qed.

Lemma getEnvKeys_sub (e l : Env) (prefix : string) :
  (forall k v, In (k, v) l -> env_get e k = Some v) ->
  omap (fun v => v)
    (List.filter truthy
      (map (fun envKey => env_get e envKey)
        (List.filter (fun envKey => startsWith envKey prefix) (Object_keys l))))
  = resolve_spec l prefix.
Proof.
  induction l as [|[k v] l IH]; intros Hget; [reflexivity|].
  unfold resolve_spec in *. simpl.
  assert (IH' := IH (fun k' v' H => Hget k' v' (or_intror H))).
  destruct (startsWith k prefix); simpl; [|exact IH'].
  rewrite (Hget k v (or_introl eq_refl)). simpl.
  destruct (String.eqb v ""); simpl; [exact IH'|]. f_equal. exact IH'.
Qed.


(** * The two outcomes decided before any store is chosen *)

Ltac run_monad :=
  unfold bind, ret, throw, gets, modify, try_catch in *; simpl in *.

(** C9. When no entry matches the prefix the result is the error result
    whose message says that no environment variables were found,
    whatever storage is selected, and the world is left as it was: no
    attempt, no retry. *)
Theorem no_candidates_error (w : World) (p : GetNextEnvKeyParams) :
  getEnvKeys (env w) (baseEnvName p) = [] ->
  getNextEnvKey p w =
    (w, mkResult (Some "") (Num 0)
          ("Error: No environment variables found with base name "
             +:+ baseEnvName p +:+ ".")).
Proof.
  intros H. unfold getNextEnvKey, getNextEnvKey_try. run_monad.
  by rewrite H.
Qed.

Lemma no_candidates_error_witness :
  let w := loadModule [("OTHER", "x")] "/app" ∅ true ∅ (fun _ => None) (fun _ => None) in
  getNextEnvKey (mkParams "API_KEY_" (Some MEMORY)) w =
    (w, mkResult (Some "") (Num 0)
          "Error: No environment variables found with base name API_KEY_.").
Proof. intros w. apply (no_candidates_error w (mkParams "API_KEY_" (Some MEMORY))). reflexivity. Defined.

(** C3. With exactly one candidate [getNextEnvKey] returns that value
    with index 0 and the world is unchanged: nothing is read from or
    written to a file, the memory map or the remote collection, no
    connection is attempted, and the credentials are not looked at (the
    statement holds for every world and every storage). *)
Theorem single_key_fast_path (w : World) (p : GetNextEnvKeyParams) (v : string) :
  getEnvKeys (env w) (baseEnvName p) = [v] ->
  getNextEnvKey p w =
    (w, mkResult (Some v) (Num 0) "Only one key available, using key with index 0.").
Proof.
  intros H. unfold getNextEnvKey, getNextEnvKey_try. run_monad.
  by rewrite H.
Qed.

Lemma single_key_fast_path_witness :
  let w := loadModule [("API_KEY_1", "k1")] "/app" ∅ false ∅
             (fun _ => Some "unreachable") (fun _ => Some "unreachable") in
  getNextEnvKey (mkParams "API_KEY_" None) w =
    (w, mkResult (Some "k1") (Num 0) "Only one key available, using key with index 0.").
Proof. intros w. apply (single_key_fast_path w (mkParams "API_KEY_" None) "k1"). reflexivity. Defined.

(** * Stores *)

Lemma string_length_app (s t : string) :
  String.length (s +:+ t) = (String.length s + String.length t)%nat.
Proof. induction s; simpl; [done|]. by rewrite IHs. Qed.

Lemma string_app_inj_r (t s1 s2 : string) : s1 +:+ t = s2 +:+ t -> s1 = s2.
Proof.
  revert s2. induction s1 as [|c s1 IH]; intros [|c' s2] H; simpl in *.
  - done.
  - apply (f_equal String.length) in H.
    rewrite !string_length_app in H. simpl in H. lia.
  - apply (f_equal String.length) in H.
    rewrite !string_length_app in H. simpl in H. lia.
  - injection H as -> H. f_equal. by apply IH.
Qed.

Lemma cacheFilePath_inj (dir q1 q2 : string) :
  cacheFilePath dir q1 = cacheFilePath dir q2 -> q1 = q2.
Proof.
  unfold cacheFilePath, path_join. intros H.
  apply String.app_inj in H. apply (String.app_inj "/") in H.
  apply (String.app_inj "env_cache_") in H.
  by apply string_app_inj_r in H.
Qed.

Lemma cursor_name_inj (q1 q2 : string) :
  "envCache_" +:+ q1 = "envCache_" +:+ q2 -> q1 = q2.
Proof. apply String.app_inj. Qed.

Lemma memoryCaches_get_insert_eq (m : gmap string jsval) (k : string) (i : jsval) :
  memoryCaches_get (<[k := i]> m) k = Some i.
Proof. unfold memoryCaches_get. by rewrite lookup_insert_eq. Qed.

Lemma memoryCaches_get_insert_ne (m : gmap string jsval) (k k' : string) (i : jsval) :
  k <> k' -> memoryCaches_get (<[k := i]> m) k' = memoryCaches_get m k'.
Proof. intros H. unfold memoryCaches_get. by rewrite lookup_insert_ne. Qed.

(** ** Memory *)

Lemma handleMemoryStorage_run (envKeys : list string) (base : string) (w : World) :
  1 < len envKeys ->
  let i := default (Num 0) (memoryCaches_get (memoryCaches w) base) in
  let i' := js_succ_mod i (len envKeys) in
  handleMemoryStorage envKeys base w =
    (set_memoryCaches (<[base := i']> (memoryCaches w)) w,
     Ok (mkResult (arr_get envKeys i) i'
           (updated_message MEMORY +:+ js_show i'))).
Proof.
  intros Hn. apply Z.ltb_lt in Hn.
  unfold handleMemoryStorage, memoryCaches_index, memoryCaches_set_index.
  run_monad.
  destruct (memoryCaches_get (memoryCaches w) base) as [i|] eqn:Hget; run_monad.
  - rewrite Hget, Hn. run_monad.
    by rewrite memoryCaches_get_insert_eq.
  - rewrite memoryCaches_get_insert_eq, Hn. run_monad.
    rewrite memoryCaches_get_insert_eq.
    unfold set_memoryCaches; simpl. by rewrite insert_insert_eq.
Qed.

(** ** File *)

Lemma handleDiskStorage_run (envKeys : list string) (path : string) (w : World) (i : jsval) :
  1 < len envKeys ->
  disk_cache w path = JObject i ->
  let i' := js_succ_mod i (len envKeys) in
  handleDiskStorage envKeys path w =
    match writeFile path (JSON_stringify (JObject i')) (log (EvReadFile path) w) with
    | (w', Ok _) =>
        (w', Ok (mkResult (arr_get envKeys i) i' (updated_message DISK +:+ js_show i')))
    | (w', Throw msg) => (w', Throw msg)
    end.
Proof.
  intros Hn Hc. apply Z.ltb_lt in Hn.
  unfold handleDiskStorage, readFile, disk_cache in *. run_monad.
  destruct (files w !! path) as [[[|v] [|] wr]|]; run_monad; subst;
    run_monad; rewrite Hn; run_monad; try injection Hc as <-; reflexivity.
Qed.

Lemma handleDiskStorage_null (envKeys : list string) (path : string) (w : World) :
  disk_cache w path = JNull ->
  handleDiskStorage envKeys path w =
    (log (EvReadFile path) w, Throw "Cannot read properties of null (reading 'index')").
Proof.
  intros Hc. unfold handleDiskStorage, readFile, disk_cache in *. run_monad.
  destruct (files w !! path) as [[[|v] [|] wr]|]; run_monad; subst;
    try discriminate; reflexivity.
Qed.

(** ** Connection *)

Lemma after_connects_step (k : nat) (evs : list event) (ms : Z) (w : World) :
  after_connects k evs (log (EvSleep ms) (count_connect (log EvConnect w)))
  = after_connects (S k) (EvConnect :: EvSleep ms :: evs) w.
Proof.
  unfold after_connects, log, count_connect; simpl.
  f_equal; [lia|]. by rewrite <- !app_assoc.
Qed.

Lemma connectLoop_backoff (j : nat) :
  forall (iterations : nat) (attempt attempts : Z) (w : World),
    (j < iterations)%nat ->
    attempt + Z.of_nat j <= attempts ->
    (forall i : nat, (i < j)%nat -> connect_fault w (connects w + i)%nat <> None) ->
    connect_fault w (connects w + j)%nat = None \/ attempt + Z.of_nat j = attempts ->
    connectLoop iterations attempt attempts w =
      (after_connects (S j) (backoff j attempt ++ [EvConnect]) w,
       match connect_fault w (connects w + j)%nat with
       | None => Ok mkMongoClient
       | Some msg => Throw msg
       end).
Proof.
  induction j as [|j IH]; intros [|it] a n w Hit Hle Hfail Hlast; try lia.
  - simpl. unfold MongoClient_connect, setTimeout. run_monad.
    rewrite Nat.add_0_r in *.
    assert (Hw : count_connect (log EvConnect w) = after_connects 1 [EvConnect] w).
    { unfold after_connects, count_connect, log; simpl. f_equal. lia. }
    destruct (connect_fault w (connects w)) as [msg|]; [|by rewrite Hw].
    destruct Hlast as [?|Hlast]; [done|].
    assert ((a <? n) = false) as -> by (apply Z.ltb_ge; lia).
    by rewrite Hw.
  - simpl. unfold MongoClient_connect, setTimeout. run_monad.
    specialize (Hfail 0%nat ltac:(lia)) as Hfirst. rewrite Nat.add_0_r in Hfirst.
    destruct (connect_fault w (connects w)) as [msg|] eqn:Hf; [|done].
    assert ((a <? n) = true) as -> by (apply Z.ltb_lt; lia).
    set (w1 := log (EvSleep (1000 * a)) (count_connect (log EvConnect w))).
    assert (Hshift : forall i, connect_fault w1 (connects w1 + i)%nat
                               = connect_fault w (connects w + S i)%nat).
    { intros i. subst w1. simpl. f_equal. lia. }
    rewrite (IH it (a + 1) n w1); [| lia | lia | | ].
    + rewrite Hshift. subst w1. by rewrite after_connects_step.
    + intros i Hi. rewrite Hshift. apply Hfail. lia.
    + rewrite Hshift. destruct Hlast as [?|?]; [by left | right; lia].
Qed.

Lemma connectToMongo_cached (w : World) (c : MongoClient) :
  client w = Some c -> connectToMongo w = (w, Ok (db w)).
Proof. intros H. unfold connectToMongo. run_monad. by rewrite H. Qed.

Lemma connectToMongo_fresh (w w' : World) (c : MongoClient) :
  client w = None ->
  connectWithRetry 5 w = (w', Ok c) ->
  connectToMongo w =
    (set_db (Some (dbName w')) (set_client (Some c) w'), Ok (Some (dbName w'))).
Proof.
  intros Hc Hr. unfold connectToMongo. run_monad. by rewrite Hc, Hr.
Qed.

Lemma connectToMongo_ready (w : World) :
  connection_ready w ->
  exists (k : nat) (evs : list event) (c : MongoClient) (d : string),
    let w' := set_db (Some d) (set_client (Some c) (after_connects k evs w)) in
    connectToMongo w = (w', Ok (Some d)).
Proof.
  unfold connection_ready. intros Hr.
  destruct (client w) as [c|] eqn:Hc.
  - destruct (db w) as [d|] eqn:Hd; [|done].
    exists 0%nat, [], c, d.
    rewrite (connectToMongo_cached w c Hc), Hd. f_equal.
    destruct w; simpl in *; subst.
    unfold set_db, set_client, after_connects; simpl.
    by rewrite Nat.add_0_r, app_nil_r.
  - destruct Hr as (j & Hj & Hfail & Hok).
    exists (S j), (backoff j 1 ++ [EvConnect]), mkMongoClient, (dbName w).
    rewrite (connectToMongo_fresh w
               (after_connects (S j) (backoff j 1 ++ [EvConnect]) w) mkMongoClient Hc);
      [reflexivity|].
    unfold connectWithRetry.
    rewrite (connectLoop_backoff j); [by rewrite Hok| simpl; lia | lia | done | by left].
Qed.

(** ** Remote *)

Lemma remote_op_ok {A} (e : event) (run : World -> World * A) (w : World) :
  remote_fault w (remote_ops w) = None ->
  remote_op e run w =
    (fst (run (count_remote_op (log e w))), Ok (snd (run (count_remote_op (log e w))))).
Proof.
  intros H. unfold remote_op. rewrite H. by destruct (run _).
Qed.

Lemma remote_op_fault {A} (e : event) (run : World -> World * A) (w : World) (msg : string) :
  remote_fault w (remote_ops w) = Some msg ->
  remote_op e run w = (count_remote_op (log e w), Throw msg).
Proof. intros H. unfold remote_op. by rewrite H. Qed.

Lemma credentials_set (u p d : string) :
  u <> "" -> p <> "" -> d <> "" ->
  String.eqb u "" || String.eqb p "" || String.eqb d "" = false.
Proof.
  intros Hu Hp Hd.
  destruct (String.eqb_spec u ""), (String.eqb_spec p ""), (String.eqb_spec d ""); done.
Qed.

Lemma handleDatabaseStorage_run (envKeys : list string) (base : string) (w : World) :
  1 < len envKeys ->
  store_ready w DATABASE base ->
  let name := "envCache_" +:+ base in
  let i := default (Num 0) (fileIndex w !! name) in
  let i' := js_succ_mod i (len envKeys) in
  exists w',
    handleDatabaseStorage envKeys base w =
      (w', Ok (mkResult (arr_get envKeys i) i' (updated_message DATABASE +:+ js_show i')))
    /\ fileIndex w' = <[name := i']> (fileIndex w)
    /\ env w' = env w /\ dirname w' = dirname w
    /\ memoryCaches w' = memoryCaches w /\ files w' = files w
    /\ store_ready w' DATABASE base.
Proof.
  intros Hn (Hu & Hp & Hd & Hconn & Hsound) name i i'. apply Z.ltb_lt in Hn.
  destruct (connectToMongo_ready w Hconn) as (k & evs & c & d & Hrun).
  set (w1 := set_db (Some d) (set_client (Some c) (after_connects k evs w))) in *.
  unfold handleDatabaseStorage, getFileIndexCollection. run_monad.
  rewrite (credentials_set _ _ _ Hu Hp Hd), Hrun. run_monad.
  unfold findOne, insertOne, updateOne.
  rewrite remote_op_ok by (apply Hsound; simpl; lia). simpl.
  subst i i'. fold name.
  destruct (fileIndex w !! name) as [i|] eqn:Hdoc; simpl.
  - rewrite Hn. run_monad.
    rewrite remote_op_ok by (apply Hsound; simpl; lia). simpl. rewrite Hdoc. simpl.
    eexists. split; [reflexivity|]. simpl.
    do 8 (split; [done|]). split; [by unfold connection_ready|].
    intros k' Hk'. apply Hsound. lia.
  - rewrite remote_op_ok by (apply Hsound; simpl; lia). simpl.
    rewrite Hn. run_monad.
    rewrite remote_op_ok by (apply Hsound; simpl; lia). simpl.
    rewrite lookup_insert_eq. simpl.
    eexists. split; [reflexivity|]. simpl.
    split; [by rewrite insert_insert_eq|].
    do 7 (split; [done|]). split; [by unfold connection_ready|].
    intros k' Hk'. apply Hsound. lia.
Qed.

(** * One call over more than one key *)

Lemma getNextEnvKey_try_dispatch (p : GetNextEnvKeyParams) (w : World) :
  1 < len (getEnvKeys (env w) (baseEnvName p)) ->
  getNextEnvKey_try p w =
    let envKeys := getEnvKeys (env w) (baseEnvName p) in
    match default DATABASE (storage p) with
    | DATABASE => handleDatabaseStorage envKeys (baseEnvName p) w
    | MEMORY => handleMemoryStorage envKeys (baseEnvName p) w
    | DISK => handleDiskStorage envKeys (cacheFilePath (dirname w) (baseEnvName p)) w
    end.
Proof.
  intros Hn. unfold getNextEnvKey_try. run_monad.
  assert ((len (getEnvKeys (env w) (baseEnvName p)) =? 0) = false) as ->
    by (apply Z.eqb_neq; lia).
  assert ((len (getEnvKeys (env w) (baseEnvName p)) =? 1) = false) as ->
    by (apply Z.eqb_neq; lia).
  by destruct (default DATABASE (storage p)).
Qed.

Lemma js_succ_mod_Num (z n : Z) :
  1 < n -> js_succ_mod (Num z) n = Num (Z.rem (z + 1) n).
Proof.
  intros Hn. unfold js_succ_mod.
  by assert ((n =? 0) = false) as -> by (apply Z.eqb_neq; lia).
Qed.

Lemma disk_cache_ready (w : World) (base : string) :
  store_ready w DISK base ->
  disk_cache w (cacheFilePath (dirname w) base) = JObject (cursor w DISK base).
Proof.
  unfold store_ready, disk_cache, cursor, store_record.
  destruct (files w !! cacheFilePath (dirname w) base) as [[[|[|i]] r wr]|];
    simpl; intros H; first [done | by destruct H as (-> & _ & ?)].
Qed.

Lemma getNextEnvKey_step (p : GetNextEnvKeyParams) (w : World) (z : Z) :
  let base := baseEnvName p in
  let s := default DATABASE (storage p) in
  let envKeys := getEnvKeys (env w) base in
  1 < len envKeys ->
  store_ready w s base ->
  cursor w s base = Num z ->
  exists w',
    getNextEnvKey p w = (w', served s envKeys z)
    /\ env w' = env w
    /\ store_record w' s base = Some (Num (Z.rem (z + 1) (len envKeys)))
    /\ store_ready w' s base.
Proof.
  intros base s envKeys Hn Hready Hcur.
  unfold getNextEnvKey. rewrite getNextEnvKey_try_dispatch by done.
  fold base envKeys s. unfold served.
  destruct s eqn:Hs; simpl.
  - (* DISK *)
    pose proof (disk_cache_ready w base Hready) as Hc. rewrite Hcur in Hc.
    rewrite (handleDiskStorage_run envKeys _ w (Num z) Hn Hc).
    rewrite js_succ_mod_Num by done. unfold writeFile. simpl.
    unfold store_ready in Hready. unfold store_record.
    destruct (files w !! cacheFilePath (dirname w) base) as [[t r wr]|] eqn:Hf; simpl in *.
    + destruct Hready as (-> & -> & _).
      eexists. split; [reflexivity|]. simpl. rewrite lookup_insert_eq. done.
    + rewrite Hready.
      eexists. split; [reflexivity|]. simpl. rewrite lookup_insert_eq. done.
  - (* MEMORY *)
    rewrite (handleMemoryStorage_run envKeys base w Hn).
    unfold cursor, store_record in Hcur. rewrite Hcur.
    rewrite js_succ_mod_Num by done.
    eexists. split; [reflexivity|]. simpl.
    by rewrite memoryCaches_get_insert_eq.
  - (* DATABASE *)
    destruct (handleDatabaseStorage_run envKeys base w Hn Hready)
      as (w' & Hrun & Hdocs & Henv & _ & _ & _ & Hready').
    unfold cursor, store_record in Hcur. rewrite Hcur in Hrun, Hdocs.
    rewrite js_succ_mod_Num in Hrun, Hdocs by done.
    rewrite Hrun. exists w'. split; [reflexivity|]. split; [done|].
    split; [|done]. by rewrite Hdocs, lookup_insert_eq.
Qed.

(** * Rotation *)

Lemma served_expected (s : Storage) (envKeys : list string) (k : nat) :
  1 < len envKeys ->
  served s envKeys (Z.of_nat k mod len envKeys) = expected_call s envKeys (Z.of_nat (S k)).
Proof.
  intros Hn. unfold served, expected_call. simpl.
  assert (Hr : 0 <= Z.of_nat k mod len envKeys < len envKeys)
    by (apply Z.mod_pos_bound; lia).
  assert (Hnext : Z.rem (Z.of_nat k mod len envKeys + 1) (len envKeys)
                  = Z.of_nat (S k) mod len envKeys).
  { rewrite Z.rem_mod_nonneg by lia.
    rewrite Z.add_mod_idemp_l by lia. f_equal. lia. }
  rewrite Hnext.
  assert ((0 <=? Z.of_nat k mod len envKeys) = true) as -> by (apply Z.leb_le; lia).
  replace (Z.of_nat (S k) - 1) with (Z.of_nat k) by lia. done.
Qed.

Lemma calls_from_cursor (p : GetNextEnvKeyParams) (m : nat) :
  forall (w : World) (z : Z),
    let base := baseEnvName p in
    let s := default DATABASE (storage p) in
    let envKeys := getEnvKeys (env w) base in
    1 < len envKeys ->
    store_ready w s base ->
    cursor w s base = Num z ->
    0 <= z < len envKeys ->
    snd (calls m p w) =
      map (fun k : nat => served s envKeys ((z + Z.of_nat k) mod len envKeys)) (seq 0 m).
Proof.
  induction m as [|m IH]; intros w z base s envKeys; subst base s envKeys;
    intros Hn Hready Hcur Hz; [reflexivity|].
  destruct (getNextEnvKey_step p w z Hn Hready Hcur) as (w' & Hrun & Henv & Hrec & Hready').
  simpl. rewrite Hrun.
  assert (Hnext : Z.rem (z + 1) (len (getEnvKeys (env w) (baseEnvName p)))
                  = (z + 1) mod len (getEnvKeys (env w) (baseEnvName p)))
    by (apply Z.rem_mod_nonneg; lia).
  specialize (IH w' ((z + 1) mod len (getEnvKeys (env w) (baseEnvName p)))).
  simpl in IH. rewrite Henv in IH.
  destruct (calls m p w') as [w'' rs]. simpl in IH |- *. rewrite IH; try done.
  - f_equal.
    + change (Z.of_nat 0) with 0. by rewrite Z.add_0_r, Z.mod_small by lia.
    + rewrite <- seq_shift, map_map. apply map_ext. intros k.
      f_equal. rewrite Z.add_mod_idemp_l by lia. f_equal. lia.
  - unfold cursor. by rewrite Hrec, Hnext.
  - apply Z.mod_pos_bound. lia.
Qed.

(** The rotation where a read of the store finds no record for the
    prefix: with more than one candidate the [k]-th of [m] consecutive
    calls returns the index [k mod n] and the key
    [candidates[(k - 1) mod n]]; and a call that finds the in-range
    index [i] in the store returns [candidates[i]] together with
    [(i + 1) mod n], which it leaves in the store.  The store is taken
    to answer ([store_ready]): the file can be written, the remote side
    is reachable with credentials set.  A read of [memoryCaches] finds
    a record for every name that [Object.prototype] provides, also on a
    freshly loaded module: those prefixes are outside this statement
    and are treated in the last section. *)
Theorem rotation_from_fresh_store (p : GetNextEnvKeyParams) (w : World) :
  let base := baseEnvName p in
  let s := default DATABASE (storage p) in
  let envKeys := getEnvKeys (env w) base in
  let n := len envKeys in
  1 < n ->
  store_ready w s base ->
  (store_record w s base = None ->
   forall m : nat,
     snd (calls m p w) = map (fun k : nat => expected_call s envKeys (Z.of_nat k)) (seq 1 m))
  /\ (forall i : Z,
        store_record w s base = Some (Num i) -> 0 <= i < n ->
        exists w',
          getNextEnvKey p w =
            (w', mkResult (nth_error envKeys (Z.to_nat i)) (Num ((i + 1) mod n))
                   (updated_message s +:+ pretty ((i + 1) mod n)))
          /\ store_record w' s base = Some (Num ((i + 1) mod n))).
Proof.
  intros base s envKeys n. subst base s envKeys n. intros Hn Hready. split.
  - intros Hfresh m.
    rewrite (calls_from_cursor p m w 0); try done.
    + rewrite <- seq_shift, map_map. apply map_ext. intros k.
      by rewrite Z.add_0_l, served_expected.
    + unfold cursor. by rewrite Hfresh.
    + lia.
  - intros i Hrec Hi.
    destruct (getNextEnvKey_step p w i Hn Hready) as (w' & Hrun & _ & Hrec' & _).
    { unfold cursor. by rewrite Hrec. }
    rewrite Z.rem_mod_nonneg in Hrec' by lia.
    exists w'. split; [|done]. rewrite Hrun. unfold served.
    rewrite Z.rem_mod_nonneg by lia. simpl.
    by assert ((0 <=? i) = true) as -> by (apply Z.leb_le; lia).
Qed.

Lemma rotation_from_fresh_store_witness :
  let w := loadModule [("K_1", "a"); ("K_2", "b"); ("K_3", "c")] "/app" ∅ true ∅
             (fun _ => None) (fun _ => None) in
  snd (calls 5 (mkParams "K_" (Some DISK)) w) =
    map (expected_call DISK ["a"; "b"; "c"]) [1; 2; 3; 4; 5].
Proof.
  intros w.
  assert (Hn : 1 < len (getEnvKeys (env w) "K_")) by (vm_compute; reflexivity).
  assert (Hready : store_ready w DISK "K_") by (vm_compute; reflexivity).
  destruct (rotation_from_fresh_store (mkParams "K_" (Some DISK)) w Hn Hready) as [H _].
  exact (H eq_refl 5%nat).
Defined.

(** C10. When the store holds an index [i >= n] for [n > 1] candidates,
    the call reads past the end of the candidate list: the key of the
    result is [undefined], not the empty key of an error result, while
    the index returned and written back is [(i + 1) mod n], inside
    [0, n).  ([i] is a safe integer, so that [i + 1] is exact.) *)
Theorem out_of_range_cursor (p : GetNextEnvKeyParams) (w : World) (i : Z) :
  let base := baseEnvName p in
  let s := default DATABASE (storage p) in
  let envKeys := getEnvKeys (env w) base in
  let n := len envKeys in
  1 < n ->
  store_ready w s base ->
  store_record w s base = Some (Num i) ->
  n <= i <= MAX_SAFE_INTEGER ->
  exists w',
    getNextEnvKey p w =
      (w', mkResult None (Num ((i + 1) mod n))
             (updated_message s +:+ pretty ((i + 1) mod n)))
    /\ snd (getNextEnvKey p w) <> error_result (message (snd (getNextEnvKey p w)))
    /\ 0 <= (i + 1) mod n < n
    /\ store_record w' s base = Some (Num ((i + 1) mod n)).
Proof.
  intros base s envKeys n. subst base s envKeys n. intros Hn Hready Hrec Hi.
  destruct (getNextEnvKey_step p w i Hn Hready) as (w' & Hrun & _ & Hrec' & _).
  { unfold cursor. by rewrite Hrec. }
  rewrite Z.rem_mod_nonneg in Hrec' by lia.
  assert (Hres : getNextEnvKey p w =
            (w', mkResult None
                   (Num ((i + 1) mod len (getEnvKeys (env w) (baseEnvName p))))
                   (updated_message (default DATABASE (storage p))
                      +:+ pretty ((i + 1) mod len (getEnvKeys (env w) (baseEnvName p)))))).
  { rewrite Hrun. unfold served. rewrite Z.rem_mod_nonneg by lia. simpl.
    assert ((0 <=? i) = true) as -> by (apply Z.leb_le; lia).
    assert (nth_error (getEnvKeys (env w) (baseEnvName p)) (Z.to_nat i) = None) as ->;
      [|done].
    apply nth_error_None. unfold len in *. lia. }
  exists w'. rewrite Hres. simpl.
  split; [done|]. split; [done|]. split; [|done].
  apply Z.mod_pos_bound. lia.
Qed.

Lemma out_of_range_cursor_witness :
  let w := loadModule
             [("K_1", "a"); ("K_2", "b"); ("DB_USERNAME", "user"); ("DB_PASSWORD", "secret")]
             "/app" ∅ true {["envCache_K_" := Num 7]} (fun _ => None) (fun _ => None) in
  exists w',
    getNextEnvKey (mkParams "K_" None) w =
      (w', mkResult None (Num 0)
             "Successfully retrieved the key and updated the database cache. Current index: 0")
    /\ snd (getNextEnvKey (mkParams "K_" None) w)
       <> error_result (message (snd (getNextEnvKey (mkParams "K_" None) w)))
    /\ 0 <= 0 < 2
    /\ store_record w' DATABASE "K_" = Some (Num 0).
Proof.
  intros w.
  assert (Hn : 1 < len (getEnvKeys (env w) "K_")) by (vm_compute; reflexivity).
  assert (Hready : store_ready w DATABASE "K_").
  { do 3 (split; [discriminate|]). split.
    - exists 0%nat. split; [lia|]. split; [lia|reflexivity].
    - reflexivity. }
  assert (Hi : len (getEnvKeys (env w) "K_") <= 7 <= MAX_SAFE_INTEGER)
    by (vm_compute; split; discriminate).
  exact (out_of_range_cursor (mkParams "K_" None) w 7 Hn Hready eq_refl Hi).
Defined.

(** * File backend fallback *)

Lemma disk_cache_fallback (w : World) (path : string) :
  read_or_parse_fails w path -> disk_cache w path = JObject (Num 0).
Proof.
  unfold read_or_parse_fails, disk_cache.
  destruct (files w !! path) as [[t r wr]|]; simpl; [|done].
  intros [-> | ->]; [by destruct t|done].
Qed.

(** C7. For the File backend, a cursor file that is missing, cannot be
    read, or does not parse is taken as no record: nothing of that
    failure reaches the result, the call returns what the first call on a
    fresh store returns (the key at index 0 with index 1) and leaves
    [{ index: 1 }] in the file, provided the file can be written. *)
Theorem unreadable_cursor_file_starts_at_zero (p : GetNextEnvKeyParams) (w : World) :
  let base := baseEnvName p in
  let envKeys := getEnvKeys (env w) base in
  let path := cacheFilePath (dirname w) base in
  default DATABASE (storage p) = DISK ->
  1 < len envKeys ->
  read_or_parse_fails w path ->
  write_permitted w path ->
  exists w' nd,
    getNextEnvKey p w = (w', expected_call DISK envKeys 1)
    /\ expected_call DISK envKeys 1 =
         mkResult (nth_error envKeys 0) (Num 1) (updated_message DISK +:+ "1")
    /\ files w' !! path = Some nd
    /\ node_text nd = Json (JObject (Num 1)).
Proof.
  intros base envKeys path. subst base envKeys path. intros Hs Hn Hfail Hwrite.
  assert (Hexp : expected_call DISK (getEnvKeys (env w) (baseEnvName p)) 1 =
                 mkResult (nth_error (getEnvKeys (env w) (baseEnvName p)) 0) (Num 1)
                   (updated_message DISK +:+ "1")).
  { unfold expected_call. rewrite Z.sub_diag, Z.mod_0_l, Z.mod_1_l by lia. done. }
  rewrite Hexp.
  unfold getNextEnvKey. rewrite getNextEnvKey_try_dispatch, Hs by done. simpl.
  rewrite (handleDiskStorage_run _ _ w (Num 0) Hn (disk_cache_fallback _ _ Hfail)).
  rewrite js_succ_mod_Num by done.
  assert (Z.rem (0 + 1) (len (getEnvKeys (env w) (baseEnvName p))) = 1) as ->.
  { rewrite Z.rem_mod_nonneg by lia. apply Z.mod_1_l. lia. }
  unfold writeFile, write_permitted in *. simpl.
  destruct (files w !! cacheFilePath (dirname w) (baseEnvName p)) as [nd|]; rewrite Hwrite.
  - eexists _, _. split; [reflexivity|]. split; [done|]. simpl.
    by rewrite lookup_insert_eq.
  - eexists _, _. split; [reflexivity|]. split; [done|]. simpl.
    by rewrite lookup_insert_eq.
Qed.

Lemma unreadable_cursor_file_starts_at_zero_witness :
  let path := "/app/env_cache_K_.json" in
  let w := loadModule [("K_1", "a"); ("K_2", "b")] "/app"
             {[path := mkNode NotJson true true]} false ∅
             (fun _ => None) (fun _ => None) in
  exists w' nd,
    getNextEnvKey (mkParams "K_" (Some DISK)) w =
      (w', expected_call DISK ["a"; "b"] 1)
    /\ expected_call DISK ["a"; "b"] 1 =
         mkResult (Some "a") (Num 1)
           "Successfully retrieved the key and updated the file cache. Current index: 1"
    /\ files w' !! path = Some nd
    /\ node_text nd = Json (JObject (Num 1)).
Proof.
  intros path w.
  apply (unreadable_cursor_file_starts_at_zero (mkParams "K_" (Some DISK)) w).
  - reflexivity.
  - vm_compute. reflexivity.
  - vm_compute. by right.
  - vm_compute. reflexivity.
Defined.

(** * Failures inside [getNextEnvKey] *)

Lemma try_no_candidates (p : GetNextEnvKeyParams) (w : World) :
  getEnvKeys (env w) (baseEnvName p) = [] ->
  getNextEnvKey_try p w =
    (w, Throw ("No environment variables found with base name " +:+ baseEnvName p +:+ ".")).
Proof.
  intros H. unfold getNextEnvKey_try. run_monad. by rewrite H.
Qed.

Lemma try_missing_credentials (p : GetNextEnvKeyParams) (w : World) :
  1 < len (getEnvKeys (env w) (baseEnvName p)) ->
  default DATABASE (storage p) = DATABASE ->
  dbUsername w = "" \/ dbPassword w = "" \/ dbName w = "" ->
  getNextEnvKey_try p w = (w, Throw credentials_message).
Proof.
  intros Hn Hs Hmiss. rewrite getNextEnvKey_try_dispatch, Hs by done. simpl.
  unfold handleDatabaseStorage. run_monad.
  assert (String.eqb (dbUsername w) "" || String.eqb (dbPassword w) ""
            || String.eqb (dbName w) "" = true) as ->; [|done].
  destruct Hmiss as [-> | [-> | ->]]; simpl; [done| |];
    rewrite ?orb_true_r; done.
Qed.

Lemma connectWithRetry_exhausted (w : World) (msg : string) :
  (forall i : nat, (i < 4)%nat -> connect_fault w (connects w + i)%nat <> None) ->
  connect_fault w (connects w + 4)%nat = Some msg ->
  connectWithRetry 5 w = (after_connects 5 (backoff 4 1 ++ [EvConnect]) w, Throw msg).
Proof.
  intros Hfail Hlast. unfold connectWithRetry.
  rewrite (connectLoop_backoff 4); [by rewrite Hlast | simpl; lia | lia | done | by right].
Qed.

Lemma try_connection_failure (p : GetNextEnvKeyParams) (w : World) (msg : string) :
  1 < len (getEnvKeys (env w) (baseEnvName p)) ->
  default DATABASE (storage p) = DATABASE ->
  dbUsername w <> "" -> dbPassword w <> "" -> dbName w <> "" ->
  client w = None ->
  (forall i : nat, (i < 4)%nat -> connect_fault w (connects w + i)%nat <> None) ->
  connect_fault w (connects w + 4)%nat = Some msg ->
  getNextEnvKey_try p w = (after_connects 5 (backoff 4 1 ++ [EvConnect]) w, Throw msg).
Proof.
  intros Hn Hs Hu Hp Hd Hc Hfail Hlast.
  rewrite getNextEnvKey_try_dispatch, Hs by done. simpl.
  unfold handleDatabaseStorage, getFileIndexCollection, connectToMongo. run_monad.
  rewrite (credentials_set _ _ _ Hu Hp Hd), Hc.
  by rewrite (connectWithRetry_exhausted w msg Hfail Hlast).
Qed.

Lemma try_remote_failure (p : GetNextEnvKeyParams) (w : World) (msg : string) :
  1 < len (getEnvKeys (env w) (baseEnvName p)) ->
  default DATABASE (storage p) = DATABASE ->
  dbUsername w <> "" -> dbPassword w <> "" -> dbName w <> "" ->
  client w <> None -> db w <> None ->
  remote_fault w (remote_ops w) = Some msg ->
  getNextEnvKey_try p w =
    (count_remote_op (log (EvFindOne ("envCache_" +:+ baseEnvName p)) w), Throw msg).
Proof.
  intros Hn Hs Hu Hp Hd Hc Hdb Hfault.
  rewrite getNextEnvKey_try_dispatch, Hs by done. simpl.
  unfold handleDatabaseStorage, getFileIndexCollection, connectToMongo. run_monad.
  rewrite (credentials_set _ _ _ Hu Hp Hd).
  destruct (client w); [|done]. destruct (db w); [|done]. run_monad.
  unfold findOne. by rewrite (remote_op_fault _ _ w msg Hfault).
Qed.

Lemma try_file_write_failure (p : GetNextEnvKeyParams) (w : World) :
  let path := cacheFilePath (dirname w) (baseEnvName p) in
  1 < len (getEnvKeys (env w) (baseEnvName p)) ->
  default DATABASE (storage p) = DISK ->
  files w !! path = None ->
  dir_writable w = false ->
  getNextEnvKey_try p w =
    (log (EvWriteFile path (Json (JObject (Num 1)))) (log (EvReadFile path) w),
     Throw ("EACCES: permission denied, open '" +:+ path +:+ "'")).
Proof.
  intros path Hn Hs Hf Hd. subst path.
  rewrite getNextEnvKey_try_dispatch, Hs by done. simpl.
  rewrite (handleDiskStorage_run _ _ w (Num 0) Hn).
  - rewrite js_succ_mod_Num by done.
    assert (Z.rem (0 + 1) (len (getEnvKeys (env w) (baseEnvName p))) = 1) as ->.
    { rewrite Z.rem_mod_nonneg by lia. apply Z.mod_1_l. lia. }
    unfold writeFile. simpl. by rewrite Hf, Hd.
  - unfold disk_cache. by rewrite Hf.
Qed.

(** C1. [getNextEnvKey] is a total function into results: whatever is
    thrown inside it comes back as the result with the empty key, index
    0 and the message ["Error: "] followed by the error's message.  In
    particular so do the failures the specification names: no
    candidates, missing credentials, a connection that fails five times,
    a failed remote operation, a failed file write. *)
Theorem getNextEnvKey_never_raises (p : GetNextEnvKeyParams) (w : World) :
  (forall (w' : World) (msg : string),
     getNextEnvKey_try p w = (w', Throw msg) ->
     getNextEnvKey p w = (w', mkResult (Some "") (Num 0) ("Error: " +:+ msg)))
  /\ (forall msg : string,
        InternalFailure w p msg ->
        snd (getNextEnvKey p w) = mkResult (Some "") (Num 0) ("Error: " +:+ msg)).
Proof.
  assert (Hcatch : forall w' msg,
             getNextEnvKey_try p w = (w', Throw msg) ->
             getNextEnvKey p w = (w', mkResult (Some "") (Num 0) ("Error: " +:+ msg))).
  { intros w' msg H. unfold getNextEnvKey. by rewrite H. }
  split; [exact Hcatch|].
  intros msg Hfail.
  destruct Hfail as [H | Hn Hs Hm | msg Hn Hs Hu Hp Hd Hc Hf Hl
                     | msg Hn Hs Hu Hp Hd Hc Hdb Hf | Hn Hs Hf Hd].
  - by rewrite (Hcatch _ _ (try_no_candidates p w H)).
  - by rewrite (Hcatch _ _ (try_missing_credentials p w Hn Hs Hm)).
  - by rewrite (Hcatch _ _ (try_connection_failure p w msg Hn Hs Hu Hp Hd Hc Hf Hl)).
  - by rewrite (Hcatch _ _ (try_remote_failure p w msg Hn Hs Hu Hp Hd Hc Hdb Hf)).
  - by rewrite (Hcatch _ _ (try_file_write_failure p w Hn Hs Hf Hd)).
Qed.

Lemma getNextEnvKey_never_raises_witness :
  let w := loadModule
             [("K_1", "a"); ("K_2", "b"); ("DB_USERNAME", "user"); ("DB_PASSWORD", "secret")]
             "/app" ∅ true ∅ (fun _ => Some "connect ECONNREFUSED") (fun _ => None) in
  snd (getNextEnvKey (mkParams "K_" None) w) =
    mkResult (Some "") (Num 0) "Error: connect ECONNREFUSED".
Proof.
  intros w.
  destruct (getNextEnvKey_never_raises (mkParams "K_" None) w) as [_ H].
  apply (H "connect ECONNREFUSED").
  apply ConnectionFailure; done.
Defined.

(** * Connection retry schedule *)

Lemma delays_backoff (j : nat) :
  forall (attempt : Z) (rest : list event),
    delays (backoff j attempt ++ rest) =
      map (fun k : nat => 1000 * (attempt + Z.of_nat k)) (seq 0 j) ++ delays rest.
Proof.
  induction j as [|j IH]; intros a rest; [reflexivity|].
  simpl backoff. simpl app. unfold delays in *. simpl omap. rewrite IH.
  simpl. f_equal; [f_equal; lia|]. f_equal.
  rewrite <- seq_shift, map_map. apply map_ext. intros k. lia.
Qed.

(** C5, as the source has it.  [connectWithRetry] makes at most five
    attempts; after the failed attempt number [k < 5] it waits
    [1000 * k] milliseconds before the next one, so the delays are
    1000, 2000, 3000 and 4000; nothing follows the fifth failure but the
    rethrow of its error, which [getNextEnvKey] returns as an error
    result. *)
Theorem connectWithRetry_schedule (w : World) (j : nat) :
  (j < 5)%nat ->
  (forall i : nat, (i < j)%nat -> connect_fault w (connects w + i)%nat <> None) ->
  connect_fault w (connects w + j)%nat = None \/ j = 4%nat ->
  let evs := backoff j 1 ++ [EvConnect] in
  connectWithRetry 5 w =
    (after_connects (S j) evs w,
     match connect_fault w (connects w + j)%nat with
     | None => Ok mkMongoClient
     | Some msg => Throw msg
     end)
  /\ delays evs = map (fun k : nat => 1000 * Z.of_nat k) (seq 1 j)
  /\ (forall (p : GetNextEnvKeyParams) (msg : string),
        1 < len (getEnvKeys (env w) (baseEnvName p)) ->
        default DATABASE (storage p) = DATABASE ->
        dbUsername w <> "" -> dbPassword w <> "" -> dbName w <> "" ->
        client w = None ->
        connect_fault w (connects w + j)%nat = Some msg ->
        getNextEnvKey p w =
          (after_connects 5 (backoff 4 1 ++ [EvConnect]) w,
           mkResult (Some "") (Num 0) ("Error: " +:+ msg))).
Proof.
  intros Hj Hfail Hlast evs. subst evs. split; [|split].
  - unfold connectWithRetry.
    rewrite (connectLoop_backoff j); [done | simpl; lia | lia | done |].
    destruct Hlast as [? | ->]; [by left | by right].
  - rewrite delays_backoff, app_nil_r.
    rewrite <- seq_shift, map_map. apply map_ext. intros k. lia.
  - intros p msg Hn Hs Hu Hp Hd Hc Hmsg.
    destruct Hlast as [Hok | ->]; [congruence|].
    unfold getNextEnvKey.
    by rewrite (try_connection_failure p w msg Hn Hs Hu Hp Hd Hc Hfail Hmsg).
Qed.

Lemma connectWithRetry_schedule_witness :
  let w := loadModule
             [("K_1", "a"); ("K_2", "b"); ("DB_USERNAME", "user"); ("DB_PASSWORD", "secret")]
             "/app" ∅ true ∅ (fun _ => Some "connect ECONNREFUSED") (fun _ => None) in
  connectWithRetry 5 w =
    (after_connects 5
       [EvConnect; EvSleep 1000; EvConnect; EvSleep 2000; EvConnect; EvSleep 3000;
        EvConnect; EvSleep 4000; EvConnect] w,
     Throw "connect ECONNREFUSED")
  /\ getNextEnvKey (mkParams "K_" (Some DATABASE)) w =
       (after_connects 5 (backoff 4 1 ++ [EvConnect]) w,
        mkResult (Some "") (Num 0) "Error: connect ECONNREFUSED").
Proof.
  intros w.
  assert (Hfail : forall i : nat,
             (i < 4)%nat -> connect_fault w (connects w + i)%nat <> None) by done.
  destruct (connectWithRetry_schedule w 4 ltac:(lia) Hfail (or_intror eq_refl))
    as (Hrun & _ & Hres).
  split; [exact Hrun|].
  apply (Hres (mkParams "K_" (Some DATABASE)) "connect ECONNREFUSED"); try done.
Defined.

(** C5, in the words of the specification, does not hold: when all five attempts fail
    the delays awaited are 1000, 2000, 3000 and 4000 milliseconds, so no
    delay of five units is ever taken and the schedule is not the one
    that runs through the fifth attempt. *)
Lemma no_delay_follows_fifth_attempt :
  let w := loadModule [] "/app" ∅ true ∅ (fun _ => Some "connect ECONNREFUSED")
             (fun _ => None) in
  delays (trace (fst (connectWithRetry 5 w))) = [1000; 2000; 3000; 4000]
  /\ ~ In 5000 (delays (trace (fst (connectWithRetry 5 w))))
  /\ delays (trace (fst (connectWithRetry 5 w))) <> delays_through_fifth.
Proof.
  intros w.
  assert (H : delays (trace (fst (connectWithRetry 5 w))) = [1000; 2000; 3000; 4000])
    by (vm_compute; reflexivity).
  rewrite H. split; [done|]. split.
  - simpl. intros [?|[?|[?|[?|[]]]]]; discriminate.
  - discriminate.
Qed.

(** * Connection configuration *)

Lemma absent_credential_is_rejected (e : Env) (dir : string) (fs : gmap string fnode)
    (creatable : bool) (docs : gmap string jsval) (cf rf : nat -> option string)
    (p : GetNextEnvKeyParams) :
  env_get e "DB_USERNAME" = None \/ env_get e "DB_PASSWORD" = None ->
  default DATABASE (storage p) = DATABASE ->
  1 < len (getEnvKeys e (baseEnvName p)) ->
  let w := loadModule e dir fs creatable docs cf rf in
  getNextEnvKey p w = (w, error_result credentials_message).
Proof.
  intros Habs Hs Hn w. unfold getNextEnvKey.
  rewrite (try_missing_credentials p w); [done..|].
  subst w. simpl. destruct Habs as [-> | ->]; auto.
Qed.

(** C4 at [DB_NAME].  The binding [dbName] falls back to
    ["defaultDbName"] when [DB_NAME] is not set, so the guard
    [!dbName] of [handleDatabaseStorage] does not fire: with the two
    credentials set and a reachable remote side the call succeeds like a
    first call on a fresh store, where the message of the guard says that
    [DB_NAME] must be set. *)
Theorem absent_DB_NAME_is_accepted (e : Env) (dir : string) (fs : gmap string fnode)
    (creatable : bool) (p : GetNextEnvKeyParams) (u pw : string) :
  env_get e "DB_NAME" = None ->
  env_get e "DB_USERNAME" = Some u -> u <> "" ->
  env_get e "DB_PASSWORD" = Some pw -> pw <> "" ->
  default DATABASE (storage p) = DATABASE ->
  1 < len (getEnvKeys e (baseEnvName p)) ->
  let w := loadModule e dir fs creatable ∅ (fun _ => None) (fun _ => None) in
  dbName w = "defaultDbName"
  /\ snd (getNextEnvKey p w) = expected_call DATABASE (getEnvKeys e (baseEnvName p)) 1
  /\ snd (getNextEnvKey p w) <> error_result credentials_message.
Proof.
  intros Hname Hu Hu' Hp Hp' Hs Hn w.
  assert (Hd : dbName w = "defaultDbName") by (subst w; simpl; by rewrite Hname).
  assert (Hready : store_ready w (default DATABASE (storage p)) (baseEnvName p)).
  { rewrite Hs. subst w. simpl. rewrite Hu, Hp, Hname. simpl.
    do 3 (split; [done|]). split; [|done].
    exists 0%nat. split; [lia|]. split; [lia|done]. }
  destruct (getNextEnvKey_step p w 0 Hn Hready) as (w' & Hrun & _).
  { rewrite Hs. reflexivity. }
  rewrite Hrun, Hs. simpl snd.
  pose proof (served_expected DATABASE (getEnvKeys e (baseEnvName p)) 0 Hn) as Hexp.
  rewrite Z.mod_0_l in Hexp by lia. change (env w) with e. rewrite Hexp.
  split; [done|]. split; [done|].
  unfold expected_call, error_result. simpl.
  rewrite Z.mod_1_l by lia. discriminate.
Qed.

Lemma absent_DB_NAME_is_accepted_witness :
  let e := [("K_1", "a"); ("K_2", "b"); ("DB_USERNAME", "user"); ("DB_PASSWORD", "secret")] in
  let w := loadModule e "/app" ∅ true ∅ (fun _ => None) (fun _ => None) in
  dbName w = "defaultDbName"
  /\ snd (getNextEnvKey (mkParams "K_" (Some DATABASE)) w) =
       mkResult (Some "a") (Num 1)
         "Successfully retrieved the key and updated the database cache. Current index: 1"
  /\ snd (getNextEnvKey (mkParams "K_" (Some DATABASE)) w)
     <> error_result credentials_message.
Proof.
  intros e w.
  apply (absent_DB_NAME_is_accepted e "/app" ∅ true (mkParams "K_" (Some DATABASE))
           "user" "secret"); try done.
Defined.

(** * What a call leaves alone *)

Lemma connectLoop_world (iterations : nat) :
  forall (attempt attempts : Z) (w : World),
    exists (k : nat) (evs : list event),
      fst (connectLoop iterations attempt attempts w) = after_connects k evs w.
Proof.
  induction iterations as [|it IH]; intros a n w; simpl.
  - exists 0%nat, []. unfold throw, after_connects. simpl.
    rewrite Nat.add_0_r, app_nil_r. by destruct w.
  - unfold MongoClient_connect, setTimeout. run_monad.
    assert (Hw : count_connect (log EvConnect w) = after_connects 1 [EvConnect] w).
    { unfold after_connects, count_connect, log; simpl. f_equal. lia. }
    destruct (connect_fault w (connects w)) as [msg|]; simpl;
      [|by exists 1%nat, [EvConnect]].
    destruct (a <? n); simpl; [|by exists 1%nat, [EvConnect]].
    destruct (IH (a + 1) n (log (EvSleep (1000 * a)) (count_connect (log EvConnect w))))
      as (k & evs & Hk).
    destruct (connectLoop it (a + 1) n _) as [w' [c|msg']]; simpl in *;
      rewrite Hk, after_connects_step; eauto.
Qed.

Lemma handleDatabaseStorage_cached_footprint (envKeys : list string) (base : string)
    (w : World) (c : MongoClient) :
  client w = Some c ->
  let name := "envCache_" +:+ base in
  let w' := fst (handleDatabaseStorage envKeys base w) in
  env w' = env w /\ dirname w' = dirname w
  /\ memoryCaches w' = memoryCaches w /\ files w' = files w
  /\ (fileIndex w' = fileIndex w
      \/ (fileIndex w !! name = None /\ fileIndex w' = <[name := Num 0]> (fileIndex w))
      \/ (1 < len envKeys
          /\ fileIndex w' =
               <[name := js_succ_mod (default (Num 0) (fileIndex w !! name)) (len envKeys)]>
                 (fileIndex w))).
Proof.
  intros Hc name w'. subst w'.
  unfold handleDatabaseStorage, getFileIndexCollection, connectToMongo. run_monad.
  destruct (String.eqb (dbUsername w) "" || String.eqb (dbPassword w) ""
              || String.eqb (dbName w) ""); simpl; [tauto|].
  rewrite Hc. run_monad.
  destruct (db w) as [d|]; simpl; [|tauto].
  unfold findOne, insertOne, updateOne, remote_op. simpl. fold name.
  destruct (remote_fault w (remote_ops w)); simpl; [tauto|].
  destruct (fileIndex w !! name) as [i|] eqn:Hdoc; simpl.
  - destruct (1 <? len envKeys) eqn:Hn; simpl; [|tauto].
    apply Z.ltb_lt in Hn.
    destruct (remote_fault w (S (remote_ops w))); simpl; [tauto|].
    rewrite Hdoc. simpl. tauto.
  - destruct (remote_fault w (S (remote_ops w))); simpl; [tauto|].
    destruct (1 <? len envKeys) eqn:Hn; simpl; [|tauto].
    apply Z.ltb_lt in Hn.
    destruct (remote_fault w (S (S (remote_ops w)))); simpl; [tauto|].
    rewrite lookup_insert_eq. simpl. rewrite insert_insert_eq. tauto.
Qed.

Lemma handleDatabaseStorage_footprint (envKeys : list string) (base : string) (w : World) :
  let name := "envCache_" +:+ base in
  let w' := fst (handleDatabaseStorage envKeys base w) in
  env w' = env w /\ dirname w' = dirname w
  /\ memoryCaches w' = memoryCaches w /\ files w' = files w
  /\ (fileIndex w' = fileIndex w
      \/ (fileIndex w !! name = None /\ fileIndex w' = <[name := Num 0]> (fileIndex w))
      \/ (1 < len envKeys
          /\ fileIndex w' =
               <[name := js_succ_mod (default (Num 0) (fileIndex w !! name)) (len envKeys)]>
                 (fileIndex w))).
Proof.
  destruct (client w) as [c|] eqn:Hc;
    [exact (handleDatabaseStorage_cached_footprint envKeys base w c Hc)|].
  intros name w'. subst w'.
  destruct (String.eqb (dbUsername w) "" || String.eqb (dbPassword w) ""
              || String.eqb (dbName w) "") eqn:Hcred.
  { unfold handleDatabaseStorage. run_monad. rewrite Hcred. simpl. tauto. }
  destruct (connectLoop_world (Z.to_nat 5) 1 5 w) as (k & evs & Hk).
  fold (connectWithRetry 5) in Hk.
  destruct (connectWithRetry 5 w) as [w1 [c|msg]] eqn:Hr; simpl in Hk; subst w1.
  - set (w2 := set_db (Some (dbName w)) (set_client (Some c) (after_connects k evs w))).
    assert (Heq : handleDatabaseStorage envKeys base w
                  = handleDatabaseStorage envKeys base w2).
    { unfold handleDatabaseStorage, getFileIndexCollection, connectToMongo. run_monad.
      by rewrite Hcred, Hc, Hr. }
    rewrite Heq.
    exact (handleDatabaseStorage_cached_footprint envKeys base w2 c eq_refl).
  - unfold handleDatabaseStorage, getFileIndexCollection, connectToMongo. run_monad.
    rewrite Hcred, Hc, Hr. simpl. tauto.
Qed.

Lemma handleDiskStorage_footprint (envKeys : list string) (path : string) (w : World) :
  let w' := fst (handleDiskStorage envKeys path w) in
  env w' = env w /\ dirname w' = dirname w
  /\ memoryCaches w' = memoryCaches w /\ fileIndex w' = fileIndex w
  /\ (files w' = files w
      \/ exists (i : jsval) (r : bool),
           1 < len envKeys /\ disk_cache w path = JObject i
           /\ files w' =
                <[path := mkNode (JSON_stringify (JObject (js_succ_mod i (len envKeys)))) r true]>
                  (files w)).
Proof.
  intros w'. subst w'.
  destruct (disk_cache w path) as [|i] eqn:Hc.
  { rewrite (handleDiskStorage_null _ _ _ Hc). simpl. tauto. }
  destruct (1 <? len envKeys) eqn:Hn.
  - apply Z.ltb_lt in Hn. rewrite (handleDiskStorage_run _ _ w i Hn Hc).
    unfold writeFile. simpl.
    destruct (files w !! path) as [nd|]; simpl.
    + destruct (node_writable nd); simpl; [|tauto].
      do 4 (split; [done|]). right. exists i, (node_readable nd). done.
    + destruct (dir_writable w); simpl; [|tauto].
      do 4 (split; [done|]). right. exists i, true. done.
  - unfold handleDiskStorage, readFile, disk_cache in *. run_monad.
    destruct (files w !! path) as [[[|v] [|] wr]|]; run_monad; subst;
      run_monad; rewrite Hn; simpl; tauto.
Qed.

Lemma getNextEnvKey_world (p : GetNextEnvKeyParams) (w : World) :
  fst (getNextEnvKey p w) = fst (getNextEnvKey_try p w).
Proof. unfold getNextEnvKey. by destruct (getNextEnvKey_try p w) as [w' [r|msg]]. Qed.

Lemma candidates_cases (l : list string) : l = [] \/ (exists v, l = [v]) \/ 1 < len l.
Proof.
  destruct l as [|v [|v' l]]; [by left | right; left; by exists v | right; right].
  unfold len. simpl length. lia.
Qed.

Lemma try_single_key (p : GetNextEnvKeyParams) (w : World) (v : string) :
  getEnvKeys (env w) (baseEnvName p) = [v] ->
  getNextEnvKey_try p w =
    (w, Ok (mkResult (Some v) (Num 0) "Only one key available, using key with index 0.")).
Proof. intros H. unfold getNextEnvKey_try. run_monad. by rewrite H. Qed.

Lemma getNextEnvKey_env (p : GetNextEnvKeyParams) (w : World) :
  env (fst (getNextEnvKey p w)) = env w.
Proof.
  rewrite getNextEnvKey_world.
  destruct (candidates_cases (getEnvKeys (env w) (baseEnvName p))) as [H | [[v H] | Hn]].
  - by rewrite (try_no_candidates p w H).
  - by rewrite (try_single_key p w v H).
  - rewrite getNextEnvKey_try_dispatch by done. simpl.
    destruct (default DATABASE (storage p)).
    + apply handleDiskStorage_footprint.
    + by rewrite (handleMemoryStorage_run _ _ w Hn).
    + apply handleDatabaseStorage_footprint.
Qed.

Lemma run_env (ps : list GetNextEnvKeyParams) :
  forall w, env (run ps w) = env w.
Proof.
  induction ps as [|p ps IH]; intros w; simpl; [done|].
  by rewrite IH, getNextEnvKey_env.
Qed.

(** The freshly loaded module with no cursor file and no remote
    document: its stores hold no record, except that [memoryCaches], an
    object literal, answers for the names it inherits. *)
Lemma cursors_in_range_loadModule (e : Env) (dir : string) (creatable : bool)
    (cf rf : nat -> option string) :
  Forall (fun q => len (getEnvKeys e q) <= 1) Object_prototype_names ->
  cursors_in_range (loadModule e dir ∅ creatable ∅ cf rf).
Proof.
  intros Hproto s q i Hn Hrec. exfalso. destruct s; simpl in *.
  - by rewrite lookup_empty in Hrec.
  - unfold memoryCaches_get in Hrec. rewrite lookup_empty in Hrec.
    case_bool_decide as Hq; [|done].
    rewrite Forall_forall in Hproto. specialize (Hproto q Hq). simpl in Hproto. lia.
  - by rewrite lookup_empty in Hrec.
Qed.

(** * Key Set Resolver, stated *)

(** C8. On a configuration whose names are distinct, [getEnvKeys]
    returns exactly the non-empty values of the entries whose name
    starts with the prefix, in enumeration order.  It is a total
    function of the configuration and the prefix, which no call of
    [getNextEnvKey] changes: resolving again, also after such calls,
    yields the same list. *)
Theorem getEnvKeys_resolves (e : Env) (prefix : string) :
  NoDup (Object_keys e) ->
  getEnvKeys e prefix = resolve_spec e prefix
  /\ Forall (fun v => v <> "") (getEnvKeys e prefix)
  /\ (forall (w : World) (ps : list GetNextEnvKeyParams),
        env w = e -> getEnvKeys (env (run ps w)) prefix = getEnvKeys e prefix).
Proof.
  intros Hnd.
  assert (Heq : getEnvKeys e prefix = resolve_spec e prefix).
  { apply getEnvKeys_sub. intros k v. by apply env_get_NoDup. }
  split; [exact Heq|]. split; [|by intros w ps <-; rewrite run_env].
  rewrite Heq. unfold resolve_spec.
  apply Forall_forall. intros v Hin.
  apply list_elem_of_In, in_map_iff in Hin as [[k v'] [<- Hin]].
  apply filter_In in Hin as [_ Hb]. simpl in *.
  apply andb_true_iff in Hb as [_ Hb].
  destruct (String.eqb_spec v' ""); [discriminate|done].
Qed.

Lemma getEnvKeys_resolves_witness :
  let e := [("API_KEY_1", "k1"); ("HOME", "/root"); ("API_KEY_2", "");
            ("API_KEY_3", "k3"); ("XAPI_KEY_4", "k4")] in
  getEnvKeys e "API_KEY_" = ["k1"; "k3"]
  /\ Forall (fun v => v <> "") (getEnvKeys e "API_KEY_").
Proof.
  intros e.
  assert (Hnd : NoDup (Object_keys e)).
  { apply NoDup_ListNoDup. repeat constructor; simpl; intuition discriminate. }
  destruct (getEnvKeys_resolves e "API_KEY_" Hnd) as (Heq & Hne & _).
  split; [exact Heq | exact Hne].
Defined.

(** * Runs *)

Example rotation_in_memory :
  let w := loadModule [("K_1", "a"); ("K_2", "b"); ("K_3", "c")] "/app" ∅ true ∅
             (fun _ => None) (fun _ => None) in
  map (fun r => (key r, index r)) (snd (calls 4 (mkParams "K_" (Some MEMORY)) w)) =
    [(Some "a", Num 1); (Some "b", Num 2); (Some "c", Num 0); (Some "a", Num 1)].
Proof. vm_compute. reflexivity. Qed.

(** The first connection succeeds at its third attempt; the later calls
    reuse the cached client. *)
Example rotation_in_database :
  let w := loadModule
             [("K_1", "a"); ("K_2", "b"); ("DB_USERNAME", "user"); ("DB_PASSWORD", "secret")]
             "/app" ∅ true ∅
             (fun k => if (k <? 2)%nat then Some "connect ECONNREFUSED" else None)
             (fun _ => None) in
  let '(w', rs) := calls 3 (mkParams "K_" None) w in
  map (fun r => (key r, index r)) rs =
    [(Some "a", Num 1); (Some "b", Num 0); (Some "a", Num 1)]
  /\ trace w' =
       [EvConnect; EvSleep 1000; EvConnect; EvSleep 2000; EvConnect;
        EvFindOne "envCache_K_"; EvInsertOne "envCache_K_" (Num 0);
        EvUpdateOne "envCache_K_" (Num 1);
        EvFindOne "envCache_K_"; EvUpdateOne "envCache_K_" (Num 0);
        EvFindOne "envCache_K_"; EvUpdateOne "envCache_K_" (Num 1)].
Proof. vm_compute. split; reflexivity. Qed.

(** A document seeded with index 3 for five candidates: the call returns
    the element at index 3 and leaves 4 in the document. *)
Example seeded_document :
  let w := loadModule
             [("K_1", "a"); ("K_2", "b"); ("K_3", "c"); ("K_4", "d"); ("K_5", "e");
              ("DB_USERNAME", "user"); ("DB_PASSWORD", "secret")]
             "/app" ∅ true {["envCache_K_" := Num 3]} (fun _ => None) (fun _ => None) in
  let '(w', r) := getNextEnvKey (mkParams "K_" (Some DATABASE)) w in
  key r = Some "d" /\ index r = Num 4 /\ fileIndex w' !! "envCache_K_" = Some (Num 4).
Proof. vm_compute. repeat split; reflexivity. Qed.

(** * Corners of the stores *)

(** A prefix that is the name of a member of [Object.prototype] never
    finds [memoryCaches] without a record: the lookup answers with the
    inherited member, whose [index] is [undefined]. *)
Example inherited_name_is_not_fresh :
  let w := loadModule [("toString1", "a"); ("toString2", "b")] "/app" ∅ true ∅
             (fun _ => None) (fun _ => None) in
  store_record w MEMORY "toString" = Some undefined
  /\ snd (getNextEnvKey (mkParams "toString" (Some MEMORY)) w) =
       mkResult None NaN
         "Successfully retrieved the key and updated the memory cache. Current index: NaN".
Proof. split; vm_compute; reflexivity. Qed.

(** A cursor file that holds the JSON text [null] parses, and the read of
    [cache.index] then throws inside [handleDiskStorage]. *)
Example null_cursor_file :
  let w := loadModule [("K_1", "a"); ("K_2", "b")] "/app"
             {["/app/env_cache_K_.json" := mkNode (Json JNull) true true]} true ∅
             (fun _ => None) (fun _ => None) in
  snd (getNextEnvKey (mkParams "K_" (Some DISK)) w) =
    mkResult (Some "") (Num 0) "Error: Cannot read properties of null (reading 'index')".
Proof. vm_compute. reflexivity. Qed.

(** * Further properties of the source *)

(** ** What one call does to the stores *)

Lemma world_eta (w : World) : set_memoryCaches (memoryCaches w) w = w.
Proof. by destruct w. Qed.

Lemma handleDatabaseStorage_connected (envKeys : list string) (base : string)
    (w w1 : World) (c : MongoClient) :
  client w = None ->
  String.eqb (dbUsername w) "" || String.eqb (dbPassword w) ""
    || String.eqb (dbName w) "" = false ->
  connectWithRetry 5 w = (w1, Ok c) ->
  handleDatabaseStorage envKeys base w =
    handleDatabaseStorage envKeys base (set_db (Some (dbName w)) (set_client (Some c) w1)).
Proof.
  intros Hc Hcred Hr.
  destruct (connectLoop_world (Z.to_nat 5) 1 5 w) as (k & evs & Hk).
  fold (connectWithRetry 5) in Hk. rewrite Hr in Hk. simpl in Hk. subst w1.
  unfold handleDatabaseStorage, getFileIndexCollection, connectToMongo. run_monad.
  by rewrite Hcred, Hc, Hr.
Qed.

Lemma handleDatabaseStorage_cached_outcome (envKeys : list string) (base : string)
    (w : World) (c : MongoClient) :
  client w = Some c ->
  1 < len envKeys ->
  let name := "envCache_" +:+ base in
  let i := default (Num 0) (fileIndex w !! name) in
  let i' := js_succ_mod i (len envKeys) in
  match handleDatabaseStorage envKeys base w with
  | (w', Ok r) =>
      r = mkResult (arr_get envKeys i) i' (updated_message DATABASE +:+ js_show i')
      /\ fileIndex w' = <[name := i']> (fileIndex w)
  | (w', Throw _) =>
      fileIndex w' = fileIndex w
      \/ (fileIndex w !! name = None /\ fileIndex w' = <[name := Num 0]> (fileIndex w))
  end.
Proof.
  intros Hc Hn name i i'. subst i i'. apply Z.ltb_lt in Hn.
  unfold handleDatabaseStorage, getFileIndexCollection, connectToMongo. run_monad.
  destruct (String.eqb (dbUsername w) "" || String.eqb (dbPassword w) ""
              || String.eqb (dbName w) ""); simpl; [tauto|].
  rewrite Hc. run_monad.
  destruct (db w) as [d|]; simpl; [|tauto].
  unfold findOne, insertOne, updateOne, remote_op. simpl. fold name.
  destruct (remote_fault w (remote_ops w)); simpl; [tauto|].
  destruct (fileIndex w !! name) as [i|] eqn:Hdoc; simpl.
  - rewrite Hn. simpl.
    destruct (remote_fault w (S (remote_ops w))); simpl; [tauto|].
    rewrite Hdoc. simpl. tauto.
  - destruct (remote_fault w (S (remote_ops w))); simpl; [tauto|].
    rewrite Hn. simpl.
    destruct (remote_fault w (S (S (remote_ops w)))); simpl; [tauto|].
    rewrite lookup_insert_eq. simpl. rewrite insert_insert_eq. tauto.
Qed.

Lemma handleDatabaseStorage_outcome (envKeys : list string) (base : string) (w : World) :
  1 < len envKeys ->
  let name := "envCache_" +:+ base in
  let i := default (Num 0) (fileIndex w !! name) in
  let i' := js_succ_mod i (len envKeys) in
  match handleDatabaseStorage envKeys base w with
  | (w', Ok r) =>
      r = mkResult (arr_get envKeys i) i' (updated_message DATABASE +:+ js_show i')
      /\ fileIndex w' = <[name := i']> (fileIndex w)
  | (w', Throw _) =>
      fileIndex w' = fileIndex w
      \/ (fileIndex w !! name = None /\ fileIndex w' = <[name := Num 0]> (fileIndex w))
  end.
Proof.
  intros Hn.
  destruct (client w) as [c|] eqn:Hc;
    [exact (handleDatabaseStorage_cached_outcome envKeys base w c Hc Hn)|].
  intros name i i'.
  destruct (String.eqb (dbUsername w) "" || String.eqb (dbPassword w) ""
              || String.eqb (dbName w) "") eqn:Hcred.
  { unfold handleDatabaseStorage. run_monad. rewrite Hcred. simpl. tauto. }
  destruct (connectLoop_world (Z.to_nat 5) 1 5 w) as (k & evs & Hk).
  fold (connectWithRetry 5) in Hk.
  destruct (connectWithRetry 5 w) as [w1 [c|msg]] eqn:Hr; simpl in Hk; subst w1.
  - rewrite (handleDatabaseStorage_connected envKeys base w _ c Hc Hcred Hr).
    set (w2 := set_db (Some (dbName w)) (set_client (Some c) (after_connects k evs w))).
    exact (handleDatabaseStorage_cached_outcome envKeys base w2 c eq_refl Hn).
  - unfold handleDatabaseStorage, getFileIndexCollection, connectToMongo. run_monad.
    rewrite Hcred, Hc, Hr. simpl. tauto.
Qed.

Lemma handleDiskStorage_outcome (envKeys : list string) (path : string) (w : World) :
  1 < len envKeys ->
  match handleDiskStorage envKeys path w with
  | (w', Ok r) =>
      exists (i : jsval) (rd : bool),
        let i' := js_succ_mod i (len envKeys) in
        disk_cache w path = JObject i
        /\ r = mkResult (arr_get envKeys i) i' (updated_message DISK +:+ js_show i')
        /\ w' = with_files_trace
                  (<[path := mkNode (JSON_stringify (JObject i')) rd true]> (files w))
                  (trace w ++ [EvReadFile path; EvWriteFile path (JSON_stringify (JObject i'))])
                  w
  | (w', Throw _) =>
      w' = with_files_trace (files w) (trace w ++ [EvReadFile path]) w
      \/ exists t, w' = with_files_trace (files w)
                          (trace w ++ [EvReadFile path; EvWriteFile path t]) w
  end.
Proof.
  intros Hn.
  destruct (disk_cache w path) as [|i] eqn:Hc.
  { rewrite (handleDiskStorage_null _ _ _ Hc). left. by destruct w. }
  rewrite (handleDiskStorage_run _ _ w i Hn Hc).
  unfold writeFile. simpl.
  destruct (files w !! path) as [nd|]; simpl.
  - destruct (node_writable nd); simpl.
    + exists i, (node_readable nd). split; [done|]. split; [done|].
      unfold with_files_trace, set_files, log. simpl. by rewrite <- app_assoc.
    + right. eexists. unfold with_files_trace, log. simpl. by rewrite <- app_assoc.
  - destruct (dir_writable w); simpl.
    + exists i, true. split; [done|]. split; [done|].
      unfold with_files_trace, set_files, log. simpl. by rewrite <- app_assoc.
    + right. eexists. unfold with_files_trace, log. simpl. by rewrite <- app_assoc.
Qed.

Lemma disk_cache_cursor (w : World) (base : string) (i : jsval) :
  disk_cache w (cacheFilePath (dirname w) base) = JObject i ->
  cursor w DISK base = i.
Proof.
  unfold disk_cache, cursor, store_record.
  destruct (files w !! cacheFilePath (dirname w) base) as [[[|[|j]] [|] wr]|];
    intros H; try (injection H as <-); try discriminate; done.
Qed.

Lemma try_success_shape (p : GetNextEnvKeyParams) (w w' : World) (r : EnvKeyResult) :
  let base := baseEnvName p in
  let s := default DATABASE (storage p) in
  let envKeys := getEnvKeys (env w) base in
  1 < len envKeys ->
  getNextEnvKey_try p w = (w', Ok r) ->
  let i' := js_succ_mod (cursor w s base) (len envKeys) in
  r = mkResult (arr_get envKeys (cursor w s base)) i' (updated_message s +:+ js_show i')
  /\ persisted w' s base i'.
Proof.
  intros base s envKeys. subst base s envKeys. intros Hn Hrun.
  rewrite getNextEnvKey_try_dispatch in Hrun by done. simpl in Hrun.
  destruct (default DATABASE (storage p)); simpl.
  - pose proof (handleDiskStorage_outcome _ (cacheFilePath (dirname w) (baseEnvName p)) w Hn)
      as Hout.
    rewrite Hrun in Hout. destruct Hout as (i & rd & Hc & -> & ->).
    rewrite (disk_cache_cursor w _ i Hc). split; [done|].
    eexists. simpl. by rewrite lookup_insert_eq.
  - rewrite (handleMemoryStorage_run _ _ w Hn) in Hrun.
    injection Hrun as <- <-. split; [done|]. simpl. by rewrite lookup_insert_eq.
  - pose proof (handleDatabaseStorage_outcome _ (baseEnvName p) w Hn) as Hout.
    rewrite Hrun in Hout. destruct Hout as (-> & Hdocs). split; [done|].
    by rewrite Hdocs, lookup_insert_eq.
Qed.

Lemma error_prefix (msg : string) : String.prefix "Error: " ("Error: " +:+ msg) = true.
Proof. simpl. by destruct msg. Qed.

Lemma updated_message_no_error (s : Storage) (rest : string) :
  String.prefix "Error: " (updated_message s +:+ rest) = false.
Proof. by destruct s. Qed.

Lemma try_ok_no_error (p : GetNextEnvKeyParams) (w w' : World) (r : EnvKeyResult) :
  getNextEnvKey_try p w = (w', Ok r) -> is_error r = false.
Proof.
  intros Hrun.
  destruct (candidates_cases (getEnvKeys (env w) (baseEnvName p))) as [H | [[v H] | Hn]].
  - by rewrite (try_no_candidates p w H) in Hrun.
  - rewrite (try_single_key p w v H) in Hrun. by injection Hrun as <- <-.
  - destruct (try_success_shape p w w' r Hn Hrun) as [-> _].
    apply updated_message_no_error.
Qed.

(** X1. The message tells failure from success: the result of
    [getNextEnvKey] has a message that starts with ["Error: "] exactly
    when an error was thrown inside it. *)
Theorem error_message_iff_thrown (p : GetNextEnvKeyParams) (w : World) :
  is_error (snd (getNextEnvKey p w)) = true
  <-> exists msg, snd (getNextEnvKey_try p w) = Throw msg.
Proof.
  unfold getNextEnvKey.
  destruct (getNextEnvKey_try p w) as [w' [r|msg]] eqn:Hrun; simpl.
  - rewrite (try_ok_no_error p w w' r Hrun). split; [done|]. by intros [msg ?].
  - split; [by exists msg|]. intros _. apply error_prefix.
Qed.

Lemma error_message_iff_thrown_witness :
  let w := loadModule [("K_1", "a"); ("K_2", "b")] "/app"
             {["/app/env_cache_K_.json" := mkNode (Json JNull) true true]} true ∅
             (fun _ => None) (fun _ => None) in
  is_error (snd (getNextEnvKey (mkParams "K_" (Some DISK)) w)) = true.
Proof.
  intros w. apply (error_message_iff_thrown (mkParams "K_" (Some DISK)) w).
  eexists. vm_compute. reflexivity.
Defined.

(** X2. A call over more than one key that does not fail returns the key
    at the index the store held (0 without a record) together with the
    next index, and has left that next index in the store it was asked
    to use before returning.  The index held is not a number beyond the
    safe integers, so that the next index is exact; and with the memory
    backend the prefix is not a name inherited from [Object.prototype],
    so that the index is kept in [memoryCaches] itself. *)
Theorem success_is_persisted (p : GetNextEnvKeyParams) (w : World) :
  let base := baseEnvName p in
  let s := default DATABASE (storage p) in
  let envKeys := getEnvKeys (env w) base in
  let w' := fst (getNextEnvKey p w) in
  let r := snd (getNextEnvKey p w) in
  1 < len envKeys ->
  is_error r = false ->
  within_safe_integers (cursor w s base) = true ->
  (s = MEMORY -> inherited_name base = false) ->
  key r = arr_get envKeys (cursor w s base)
  /\ index r = js_succ_mod (cursor w s base) (len envKeys)
  /\ message r = updated_message s +:+ js_show (index r)
  /\ persisted w' s base (index r).
Proof.
  intros base s envKeys w' r. subst base s envKeys w' r. intros Hn Herr _ _.
  unfold getNextEnvKey in *.
  destruct (getNextEnvKey_try p w) as [w' [r|msg]] eqn:Hrun; simpl in *.
  - by destruct (try_success_shape p w w' r Hn Hrun) as [-> Hp].
  - unfold is_error in Herr. simpl in Herr. by destruct msg.
Qed.

Lemma success_is_persisted_witness :
  let w := loadModule [("K_1", "a"); ("K_2", "b"); ("K_3", "c")] "/app"
             {["/app/env_cache_K_.json" := mkNode (Json (JObject (Num 1))) true true]}
             false ∅ (fun _ => None) (fun _ => None) in
  let p := mkParams "K_" (Some DISK) in
  let q := mkParams "K_" (Some MEMORY) in
  (key (snd (getNextEnvKey p w)) = Some "b"
   /\ index (snd (getNextEnvKey p w)) = Num 2
   /\ persisted (fst (getNextEnvKey p w)) DISK "K_" (Num 2))
  /\ (key (snd (getNextEnvKey q w)) = Some "a"
      /\ index (snd (getNextEnvKey q w)) = Num 1
      /\ persisted (fst (getNextEnvKey q w)) MEMORY "K_" (Num 1)).
Proof.
  intros w p q.
  assert (Hn : 1 < len (getEnvKeys (env w) "K_")) by (vm_compute; reflexivity).
  split.
  - assert (Herr : is_error (snd (getNextEnvKey p w)) = false) by (vm_compute; reflexivity).
    assert (Hsafe : within_safe_integers (cursor w DISK "K_") = true)
      by (vm_compute; reflexivity).
    assert (Hown : DISK = MEMORY -> inherited_name "K_" = false) by discriminate.
    destruct (success_is_persisted p w Hn Herr Hsafe Hown) as (Hk & Hi & _ & Hp).
    split; [exact Hk|]. split; [exact Hi|]. exact Hp.
  - assert (Herr : is_error (snd (getNextEnvKey q w)) = false) by (vm_compute; reflexivity).
    assert (Hsafe : within_safe_integers (cursor w MEMORY "K_") = true)
      by (vm_compute; reflexivity).
    assert (Hown : MEMORY = MEMORY -> inherited_name "K_" = false)
      by (intros _; vm_compute; reflexivity).
    destruct (success_is_persisted q w Hn Herr Hsafe Hown) as (Hk & Hi & _ & Hp).
    split; [exact Hk|]. split; [exact Hi|]. exact Hp.
Defined.

(** X3. A call that fails never moves a cursor: after a result whose
    message starts with ["Error: "], every store still yields, for
    every prefix, the index it yielded before.  (The remote document
    may have been created, with index 0, before the failure.) *)
Theorem failed_call_keeps_cursors (p : GetNextEnvKeyParams) (w : World) :
  is_error (snd (getNextEnvKey p w)) = true ->
  forall (s : Storage) (q : string),
    cursor (fst (getNextEnvKey p w)) s q = cursor w s q.
Proof.
  intros Herr s q. unfold getNextEnvKey in *.
  destruct (getNextEnvKey_try p w) as [w' [r|msg]] eqn:Hrun; simpl in *.
  { by rewrite (try_ok_no_error p w w' r Hrun) in Herr. }
  clear Herr.
  destruct (candidates_cases (getEnvKeys (env w) (baseEnvName p))) as [H | [[v H] | Hn]].
  - rewrite (try_no_candidates p w H) in Hrun. by injection Hrun as <- _.
  - by rewrite (try_single_key p w v H) in Hrun.
  - rewrite getNextEnvKey_try_dispatch in Hrun by done. simpl in Hrun.
    destruct (default DATABASE (storage p)).
    + pose proof (handleDiskStorage_outcome _ (cacheFilePath (dirname w) (baseEnvName p)) w Hn)
        as Hout.
      rewrite Hrun in Hout. by destruct Hout as [-> | [t ->]].
    + by rewrite (handleMemoryStorage_run _ _ w Hn) in Hrun.
    + pose proof (handleDatabaseStorage_outcome _ (baseEnvName p) w Hn) as Hout.
      destruct (handleDatabaseStorage_footprint (getEnvKeys (env w) (baseEnvName p))
                  (baseEnvName p) w) as (_ & Hdir & Hmem & Hfiles & _).
      rewrite Hrun in Hout, Hdir, Hmem, Hfiles. simpl in *.
      unfold cursor, store_record. rewrite Hdir, Hmem, Hfiles.
      destruct s; [done..|].
      destruct Hout as [-> | [Hnone ->]]; [done|].
      destruct (decide (baseEnvName p = q)) as [<-|Hne].
      * by rewrite lookup_insert_eq, Hnone.
      * rewrite lookup_insert_ne; [done|].
        intros Heq. by apply cursor_name_inj in Heq.
Qed.

Lemma failed_call_keeps_cursors_witness :
  let w := loadModule
             [("K_1", "a"); ("K_2", "b"); ("DB_USERNAME", "user"); ("DB_PASSWORD", "secret")]
             "/app" ∅ true ∅ (fun _ => None)
             (fun k => if (k =? 2)%nat then Some "write conflict" else None) in
  let p := mkParams "K_" None in
  snd (getNextEnvKey p w) = error_result "write conflict"
  /\ fileIndex (fst (getNextEnvKey p w)) !! "envCache_K_" = Some (Num 0)
  /\ forall (s : Storage) (q : string), cursor (fst (getNextEnvKey p w)) s q = cursor w s q.
Proof.
  intros w p. split; [vm_compute; reflexivity|]. split; [vm_compute; reflexivity|].
  apply (failed_call_keeps_cursors p w). vm_compute. reflexivity.
Defined.

Lemma memory_record_frame (p : GetNextEnvKeyParams) (w : World) (q : string) :
  default DATABASE (storage p) <> MEMORY \/ q <> baseEnvName p ->
  store_record (fst (getNextEnvKey p w)) MEMORY q = store_record w MEMORY q.
Proof.
  intros Hother. rewrite getNextEnvKey_world.
  destruct (candidates_cases (getEnvKeys (env w) (baseEnvName p))) as [H | [[v H] | Hn]].
  - by rewrite (try_no_candidates p w H).
  - by rewrite (try_single_key p w v H).
  - rewrite getNextEnvKey_try_dispatch by done. simpl.
    destruct (default DATABASE (storage p)) eqn:Hs.
    + destruct (handleDiskStorage_footprint (getEnvKeys (env w) (baseEnvName p))
                  (cacheFilePath (dirname w) (baseEnvName p)) w) as (_ & _ & Hmem & _).
      unfold store_record. by rewrite Hmem.
    + rewrite (handleMemoryStorage_run _ _ w Hn). simpl.
      destruct Hother as [?|Hq]; [done|].
      unfold store_record. simpl. by rewrite memoryCaches_get_insert_ne.
    + destruct (handleDatabaseStorage_footprint (getEnvKeys (env w) (baseEnvName p))
                  (baseEnvName p) w) as (_ & _ & Hmem & _).
      unfold store_record. by rewrite Hmem.
Qed.

(** X4. A call reads and writes one record only: every record of another
    prefix, and the records of the same prefix in the two stores that
    were not selected, are after the call what they were before,
    whatever the outcome.  (Prefixes are plain names, so that distinct
    prefixes have distinct cursor files; and a call that selects the
    memory backend is not made for a name inherited from
    [Object.prototype], whose [index] is not kept in [memoryCaches] but
    on an object shared by the whole process.) *)
Theorem call_touches_one_record (p : GetNextEnvKeyParams) (w : World)
    (s : Storage) (q : string) :
  s <> default DATABASE (storage p) \/ q <> baseEnvName p ->
  plain_name q = true -> plain_name (baseEnvName p) = true ->
  (default DATABASE (storage p) = MEMORY -> inherited_name (baseEnvName p) = false) ->
  store_record (fst (getNextEnvKey p w)) s q = store_record w s q.
Proof.
  intros Hother _ _ _. rewrite getNextEnvKey_world.
  destruct (candidates_cases (getEnvKeys (env w) (baseEnvName p))) as [H | [[v H] | Hn]].
  - by rewrite (try_no_candidates p w H).
  - by rewrite (try_single_key p w v H).
  - rewrite getNextEnvKey_try_dispatch by done. simpl.
    destruct (default DATABASE (storage p)) eqn:Hs.
    + destruct (handleDiskStorage_footprint (getEnvKeys (env w) (baseEnvName p))
                  (cacheFilePath (dirname w) (baseEnvName p)) w)
        as (_ & Hdir & Hmem & Hdocs & [Hfiles | (i & r & _ & _ & Hfiles)]);
        unfold store_record; rewrite Hdir, Hmem, Hdocs, Hfiles; [done|].
      destruct s; [|done..].
      destruct Hother as [?|Hq]; [done|].
      rewrite lookup_insert_ne; [done|].
      intros Heq. by apply cacheFilePath_inj in Heq.
    + rewrite (handleMemoryStorage_run _ _ w Hn). simpl.
      destruct s; [done| |done].
      destruct Hother as [?|Hq]; [done|].
      unfold store_record. simpl. by rewrite memoryCaches_get_insert_ne.
    + destruct (handleDatabaseStorage_footprint (getEnvKeys (env w) (baseEnvName p))
                  (baseEnvName p) w) as (_ & Hdir & Hmem & Hfiles & Hdocs).
      unfold store_record. rewrite Hdir, Hmem, Hfiles.
      destruct s; [done..|].
      destruct Hother as [?|Hq]; [done|].
      assert (Hne : "envCache_" +:+ baseEnvName p <> "envCache_" +:+ q).
      { intros Heq. by apply cursor_name_inj in Heq. }
      destruct Hdocs as [-> | [[_ ->] | [_ ->]]]; [done|..];
        by rewrite lookup_insert_ne.
Qed.

Lemma call_touches_one_record_witness :
  let w := loadModule [("A_1", "a1"); ("A_2", "a2"); ("B_1", "b1"); ("B_2", "b2")]
             "/app" ∅ true ∅ (fun _ => None) (fun _ => None) in
  let w1 := fst (getNextEnvKey (mkParams "A_" (Some MEMORY)) w) in
  store_record w1 MEMORY "A_" = Some (Num 1)
  /\ store_record (fst (getNextEnvKey (mkParams "B_" (Some MEMORY)) w1)) MEMORY "A_"
     = Some (Num 1)
  /\ store_record (fst (getNextEnvKey (mkParams "A_" (Some DISK)) w1)) MEMORY "A_"
     = Some (Num 1).
Proof.
  intros w w1. split; [vm_compute; reflexivity|]. split.
  - rewrite (call_touches_one_record (mkParams "B_" (Some MEMORY)) w1 MEMORY "A_");
      [vm_compute; reflexivity | right; discriminate | reflexivity | reflexivity
      | intros _; vm_compute; reflexivity].
  - rewrite (call_touches_one_record (mkParams "A_" (Some DISK)) w1 MEMORY "A_");
      [vm_compute; reflexivity | left; discriminate | reflexivity | reflexivity
      | discriminate].
Defined.

(** ** Results under the cursor invariant *)

Lemma omap_truthy_nonempty (l : list (option string)) :
  Forall (fun v => v <> "") (omap (fun v => v) (List.filter truthy l)).
Proof.
  induction l as [|[v|] l IH]; simpl; [constructor | | exact IH].
  destruct (String.eqb_spec v ""); simpl; [exact IH|].
  by constructor.
Qed.

Lemma getEnvKeys_nonempty (e : Env) (prefix : string) :
  Forall (fun v => v <> "") (getEnvKeys e prefix).
Proof. apply omap_truthy_nonempty. Qed.

Lemma arr_get_in_range (envKeys : list string) (i : jsval) :
  in_range (len envKeys) i ->
  exists v, arr_get envKeys i = Some v /\ In v envKeys.
Proof.
  intros (z & -> & Hz). simpl.
  assert ((0 <=? z) = true) as -> by (apply Z.leb_le; lia).
  destruct (nth_error envKeys (Z.to_nat z)) as [v|] eqn:Hv.
  - exists v. split; [done|]. by apply nth_error_In in Hv.
  - apply nth_error_None in Hv. unfold len in Hz. lia.
Qed.

Lemma cursor_in_range (w : World) (s : Storage) (q : string) :
  cursors_in_range w ->
  1 < len (getEnvKeys (env w) q) ->
  in_range (len (getEnvKeys (env w) q)) (cursor w s q).
Proof.
  intros Hinv Hn. unfold cursor.
  destruct (store_record w s q) as [i|] eqn:Hrec; simpl.
  - by apply (Hinv s q).
  - exists 0. split; [done|lia].
Qed.

(** X5. While the cursor invariant holds, a result that is not an error
    carries one of the candidates, hence a non-empty key, and an index
    inside the candidate list; an error result carries the empty key and
    index 0.  So the key is empty exactly when the call failed. *)
Theorem success_returns_candidate (p : GetNextEnvKeyParams) (w : World) :
  let envKeys := getEnvKeys (env w) (baseEnvName p) in
  let r := snd (getNextEnvKey p w) in
  cursors_in_range w ->
  (is_error r = false ->
   exists v z, key r = Some v /\ In v envKeys /\ v <> ""
               /\ index r = Num z /\ 0 <= z < len envKeys)
  /\ (is_error r = true -> key r = Some "" /\ index r = Num 0).
Proof.
  intros envKeys r. subst envKeys r. intros Hinv. split.
  - intros Herr.
    assert (Hne := getEnvKeys_nonempty (env w) (baseEnvName p)).
    rewrite List.Forall_forall in Hne.
    destruct (candidates_cases (getEnvKeys (env w) (baseEnvName p))) as [H | [[v H] | Hn]].
    + unfold getNextEnvKey in Herr. by rewrite (try_no_candidates p w H) in Herr.
    + unfold getNextEnvKey. rewrite (try_single_key p w v H). simpl.
      exists v, 0. rewrite H in *. unfold len. simpl.
      split; [done|]. split; [by left|]. split; [apply Hne; by left|].
      split; [done|lia].
    + assert (Hshape :
        key (snd (getNextEnvKey p w)) =
          arr_get (getEnvKeys (env w) (baseEnvName p))
            (cursor w (default DATABASE (storage p)) (baseEnvName p))
        /\ index (snd (getNextEnvKey p w)) =
             js_succ_mod (cursor w (default DATABASE (storage p)) (baseEnvName p))
               (len (getEnvKeys (env w) (baseEnvName p)))).
      { unfold getNextEnvKey in *.
        destruct (getNextEnvKey_try p w) as [w' [r|msg]] eqn:Hrun; simpl in *.
        - by destruct (try_success_shape p w w' r Hn Hrun) as [-> _].
        - unfold is_error in Herr. simpl in Herr. by destruct msg. }
      destruct Hshape as (Hk & Hi).
      pose proof (cursor_in_range w (default DATABASE (storage p)) (baseEnvName p) Hinv Hn)
        as Hcur.
      destruct (arr_get_in_range _ _ Hcur) as (v & Hv & Hin).
      assert (Hnext : in_range (len (getEnvKeys (env w) (baseEnvName p)))
                        (index (snd (getNextEnvKey p w)))).
      { rewrite Hi. destruct Hcur as (z & -> & Hz). rewrite js_succ_mod_Num by done.
        eexists. split; [done|]. rewrite Z.rem_mod_nonneg by lia.
        apply Z.mod_pos_bound. lia. }
      destruct Hnext as (z & Hz & Hzr).
      exists v, z. rewrite Hk, Hv.
      split; [done|]. split; [done|]. split; [by apply Hne|]. split; [done|lia].
  - unfold getNextEnvKey.
    destruct (getNextEnvKey_try p w) as [w' [r|msg]] eqn:Hrun; simpl; [|done].
    intros Herr. by rewrite (try_ok_no_error p w w' r Hrun) in Herr.
Qed.

Lemma success_returns_candidate_witness :
  let w := loadModule [("K_1", "a"); ("K_2", "b"); ("K_3", "c")] "/app" ∅ true ∅
             (fun _ => None) (fun _ => None) in
  let r := snd (getNextEnvKey (mkParams "K_" (Some MEMORY)) w) in
  exists v z, key r = Some v /\ In v ["a"; "b"; "c"] /\ v <> ""
              /\ index r = Num z /\ 0 <= z < 3.
Proof.
  intros w r.
  assert (Hinv : cursors_in_range w).
  { apply cursors_in_range_loadModule. repeat constructor; vm_compute; discriminate. }
  destruct (success_returns_candidate (mkParams "K_" (Some MEMORY)) w Hinv) as [H _].
  apply H. vm_compute. reflexivity.
Defined.

(** ** A full turn of the rotation *)

Lemma nth_error_lookup_eq {A} (l : list A) (i : nat) : nth_error l i = l !! i.
Proof. revert i. induction l as [|x l IH]; intros [|i]; simpl; auto. Qed.

Lemma calls_state (p : GetNextEnvKeyParams) (m : nat) :
  forall (w : World) (z : Z),
    let base := baseEnvName p in
    let s := default DATABASE (storage p) in
    let n := len (getEnvKeys (env w) base) in
    1 < n ->
    store_ready w s base ->
    cursor w s base = Num z ->
    0 <= z < n ->
    env (fst (calls m p w)) = env w
    /\ store_ready (fst (calls m p w)) s base
    /\ cursor (fst (calls m p w)) s base = Num ((z + Z.of_nat m) mod n).
Proof.
  induction m as [|m IH]; intros w z base s n; subst base s n; intros Hn Hready Hcur Hz.
  - simpl. rewrite Z.add_0_r, Z.mod_small by lia. done.
  - destruct (getNextEnvKey_step p w z Hn Hready Hcur)
      as (w1 & Hrun & Henv & Hrec & Hready1).
    simpl. rewrite Hrun.
    specialize (IH w1 ((z + 1) mod len (getEnvKeys (env w) (baseEnvName p)))).
    simpl in IH. rewrite Henv in IH.
    destruct (calls m p w1) as [w2 rs]. simpl in IH |- *.
    destruct IH as (Henv2 & Hready2 & Hcur2); try done.
    + unfold cursor. rewrite Hrec, Z.rem_mod_nonneg by lia. done.
    + apply Z.mod_pos_bound. lia.
    + split; [done|]. split; [done|]. rewrite Hcur2. f_equal.
      rewrite Z.add_mod_idemp_l by lia. f_equal. lia.
Qed.

(** X6. One full turn: starting from a stored index [z] inside the
    list, [n] consecutive calls return the candidates in order starting
    at position [z] and wrapping round, each exactly once, and leave the
    index [z] in the store again. *)
Theorem full_turn (p : GetNextEnvKeyParams) (w : World) (z : nat) :
  let base := baseEnvName p in
  let s := default DATABASE (storage p) in
  let envKeys := getEnvKeys (env w) base in
  1 < len envKeys ->
  store_ready w s base ->
  cursor w s base = Num (Z.of_nat z) ->
  (z < length envKeys)%nat ->
  map key (snd (calls (length envKeys) p w)) = map Some (rotate z envKeys)
  /\ map key (snd (calls (length envKeys) p w)) ≡ₚ map Some envKeys
  /\ cursor (fst (calls (length envKeys) p w)) s base = Num (Z.of_nat z).
Proof.
  intros base s envKeys. subst base s envKeys. intros Hn Hready Hcur Hz.
  set (l := getEnvKeys (env w) (baseEnvName p)) in *.
  assert (Hkeys : map key (snd (calls (length l) p w)) = map Some (rotate z l)).
  { rewrite (calls_from_cursor p (length l) w (Z.of_nat z)); try done;
      [|fold l; unfold len; lia].
    fold l. rewrite map_map. apply list_eq. intros i.
    rewrite !list_lookup_fmap.
    destruct (decide (i < length l)%nat) as [Hi|Hi].
    - rewrite lookup_seq_lt by done. simpl.
      rewrite lookup_rotate_r by done. unfold rotate_nat_add, served, len. simpl.
      assert (Hm : 0 <= (Z.of_nat z + Z.of_nat i) mod Z.of_nat (length l)
                   < Z.of_nat (length l)) by (apply Z.mod_pos_bound; lia).
      assert ((0 <=? (Z.of_nat z + Z.of_nat i) mod Z.of_nat (length l)) = true) as ->
        by (apply Z.leb_le; lia).
      rewrite nth_error_lookup_eq.
      destruct (lookup_lt_is_Some_2 l
                  (Z.to_nat ((Z.of_nat z + Z.of_nat i) mod Z.of_nat (length l))))
        as [v ->]; [lia|done].
    - rewrite lookup_seq_ge by lia. simpl.
      rewrite (lookup_ge_None_2 (rotate z l)); [done|].
      rewrite length_rotate. lia. }
  split; [exact Hkeys|]. split.
  - rewrite Hkeys. apply fmap_Permutation. unfold rotate.
    rewrite Permutation_app_comm. by rewrite take_drop.
  - destruct (calls_state p (length l) w (Z.of_nat z)) as (_ & _ & ->); try done;
      [fold l; unfold len; lia|].
    fold l. unfold len. f_equal.
    rewrite <- (Z.mul_1_l (Z.of_nat (length l))) at 1.
    rewrite Z.mod_add by lia. apply Z.mod_small. lia.
Qed.

Lemma full_turn_witness :
  let w := loadModule [("K_1", "a"); ("K_2", "b"); ("K_3", "c")] "/app" ∅ true ∅
             (fun _ => None) (fun _ => None) in
  let w1 := fst (getNextEnvKey (mkParams "K_" (Some DISK)) w) in
  map key (snd (calls 3 (mkParams "K_" (Some DISK)) w1)) = [Some "b"; Some "c"; Some "a"]
  /\ cursor (fst (calls 3 (mkParams "K_" (Some DISK)) w1)) DISK "K_" = Num 1.
Proof.
  intros w w1.
  assert (Hn : 1 < len (getEnvKeys (env w1) "K_")) by (vm_compute; reflexivity).
  assert (Hready : store_ready w1 DISK "K_") by (vm_compute; repeat split; discriminate).
  assert (Hcur : cursor w1 DISK "K_" = Num (Z.of_nat 1)) by (vm_compute; reflexivity).
  assert (Hz : (1 < length (getEnvKeys (env w1) "K_"))%nat) by (vm_compute; lia).
  destruct (full_turn (mkParams "K_" (Some DISK)) w1 1 Hn Hready Hcur Hz) as (Hk & _ & Hc).
  split; [exact Hk | exact Hc].
Defined.

(** ** Indexes that are not inside the list *)

Lemma getNextEnvKey_step_any (p : GetNextEnvKeyParams) (w : World) :
  let base := baseEnvName p in
  let s := default DATABASE (storage p) in
  let envKeys := getEnvKeys (env w) base in
  let i' := js_succ_mod (cursor w s base) (len envKeys) in
  1 < len envKeys ->
  store_ready w s base ->
  exists w',
    getNextEnvKey p w =
      (w', mkResult (arr_get envKeys (cursor w s base)) i'
             (updated_message s +:+ js_show i'))
    /\ env w' = env w
    /\ store_record w' s base = Some (stored_as s i')
    /\ store_ready w' s base.
Proof.
  intros base s envKeys i'. subst base s envKeys i'. intros Hn Hready.
  unfold getNextEnvKey. rewrite getNextEnvKey_try_dispatch by done.
  destruct (default DATABASE (storage p)) eqn:Hs; simpl.
  - pose proof (disk_cache_ready w (baseEnvName p) Hready) as Hc.
    rewrite (handleDiskStorage_run _ _ w _ Hn Hc).
    set (i' := js_succ_mod _ _).
    unfold writeFile. simpl.
    unfold store_ready in Hready. unfold store_record.
    destruct (files w !! cacheFilePath (dirname w) (baseEnvName p)) as [[t r wr]|] eqn:Hf;
      simpl in *.
    + destruct Hready as (-> & -> & _).
      eexists. split; [reflexivity|]. simpl. rewrite lookup_insert_eq.
      by destruct i'.
    + rewrite Hready.
      eexists. split; [reflexivity|]. simpl. rewrite lookup_insert_eq.
      by destruct i'.
  - rewrite (handleMemoryStorage_run _ _ w Hn).
    eexists. split; [reflexivity|]. simpl.
    rewrite memoryCaches_get_insert_eq. by destruct (js_succ_mod _ _).
  - destruct (handleDatabaseStorage_run _ (baseEnvName p) w Hn Hready)
      as (w' & Hrun & Hdocs & Henv & _ & _ & _ & Hready').
    rewrite Hrun. exists w'. split; [reflexivity|]. split; [done|].
    split; [|done]. rewrite Hdocs, lookup_insert_eq. by destruct (js_succ_mod _ _).
Qed.

(** X7. A negative index in the store (one the source never writes from
    a valid state) is not brought back at once: the call returns the
    key [undefined] and returns and stores the truncated remainder
    [(i + 1) rem n], which lies in [(-n, 0]]. *)
Theorem negative_cursor (p : GetNextEnvKeyParams) (w : World) (i : Z) :
  let base := baseEnvName p in
  let s := default DATABASE (storage p) in
  let envKeys := getEnvKeys (env w) base in
  let n := len envKeys in
  1 < n ->
  store_ready w s base ->
  store_record w s base = Some (Num i) ->
  - MAX_SAFE_INTEGER <= i < 0 ->
  exists w',
    getNextEnvKey p w =
      (w', mkResult None (Num (Z.rem (i + 1) n))
             (updated_message s +:+ pretty (Z.rem (i + 1) n)))
    /\ - n < Z.rem (i + 1) n <= 0
    /\ store_record w' s base = Some (Num (Z.rem (i + 1) n)).
Proof.
  intros base s envKeys n. subst base s envKeys n. intros Hn Hready Hrec Hi.
  destruct (getNextEnvKey_step p w i Hn Hready) as (w' & Hrun & _ & Hrec' & _).
  { unfold cursor. by rewrite Hrec. }
  exists w'. split; [|split; [|done]].
  - rewrite Hrun. unfold served. simpl.
    by assert ((0 <=? i) = false) as -> by (apply Z.leb_gt; lia).
  - pose proof (Z.rem_bound_abs (i + 1) (len (getEnvKeys (env w) (baseEnvName p)))
                  ltac:(lia)) as Hb.
    pose proof (Z.rem_nonpos (i + 1) (len (getEnvKeys (env w) (baseEnvName p)))
                  ltac:(lia) ltac:(lia)) as Hb'.
    lia.
Qed.

Lemma negative_cursor_witness :
  let w := loadModule [("K_1", "a"); ("K_2", "b"); ("K_3", "c")] "/app"
             {["/app/env_cache_K_.json" := mkNode (Json (JObject (Num (-5)))) true true]}
             true ∅ (fun _ => None) (fun _ => None) in
  exists w',
    getNextEnvKey (mkParams "K_" (Some DISK)) w =
      (w', mkResult None (Num (-1))
             "Successfully retrieved the key and updated the file cache. Current index: -1")
    /\ - 3 < - 1 <= 0
    /\ store_record w' DISK "K_" = Some (Num (-1)).
Proof.
  intros w.
  assert (Hn : 1 < len (getEnvKeys (env w) "K_")) by (vm_compute; reflexivity).
  assert (Hready : store_ready w DISK "K_") by (vm_compute; repeat split; discriminate).
  assert (Hi : - MAX_SAFE_INTEGER <= -5 < 0) by (vm_compute; split; [discriminate|reflexivity]).
  exact (negative_cursor (mkParams "K_" (Some DISK)) w (-5) Hn Hready eq_refl Hi).
Defined.

Lemma calls_not_a_number (p : GetNextEnvKeyParams) (m : nat) :
  forall w : World,
    let base := baseEnvName p in
    let s := default DATABASE (storage p) in
    s <> DISK ->
    1 < len (getEnvKeys (env w) base) ->
    store_ready w s base ->
    cursor w s base = undefined \/ cursor w s base = NaN ->
    snd (calls m p w) = replicate m (mkResult None NaN (updated_message s +:+ "NaN")).
Proof.
  induction m as [|m IH]; intros w base s; subst base s; intros Hs Hn Hready Hcur;
    [reflexivity|].
  destruct (getNextEnvKey_step_any p w Hn Hready) as (w' & Hrun & Henv & Hrec & Hready').
  assert (Hnext : js_succ_mod (cursor w (default DATABASE (storage p)) (baseEnvName p))
                    (len (getEnvKeys (env w) (baseEnvName p))) = NaN)
    by (destruct Hcur as [-> | ->]; reflexivity).
  assert (Hkey : arr_get (getEnvKeys (env w) (baseEnvName p))
                   (cursor w (default DATABASE (storage p)) (baseEnvName p)) = None)
    by (destruct Hcur as [-> | ->]; reflexivity).
  rewrite Hnext, Hkey in *.
  simpl. rewrite Hrun.
  specialize (IH w' Hs). rewrite Henv in IH. specialize (IH Hn Hready').
  destruct (calls m p w') as [w'' rs]. simpl in IH |- *. f_equal. apply IH.
  right. unfold cursor. rewrite Hrec.
  by destruct (default DATABASE (storage p)).
Qed.

(** X8. In the memory object and in the remote collection an index that
    is not a number never recovers: from a record whose index is
    [undefined] (a document without the field, an inherited member of
    [memoryCaches]) or [NaN], every later call returns the key
    [undefined] and the index [NaN]. *)
Theorem not_a_number_is_absorbing (p : GetNextEnvKeyParams) (w : World) (m : nat) :
  let base := baseEnvName p in
  let s := default DATABASE (storage p) in
  s <> DISK ->
  1 < len (getEnvKeys (env w) base) ->
  store_ready w s base ->
  store_record w s base = Some undefined \/ store_record w s base = Some NaN ->
  snd (calls m p w) = replicate m (mkResult None NaN (updated_message s +:+ "NaN")).
Proof.
  intros base s Hs Hn Hready Hrec. apply calls_not_a_number; try done.
  unfold cursor. fold base s. destruct Hrec as [-> | ->]; auto.
Qed.

Lemma not_a_number_is_absorbing_witness :
  let w := loadModule
             [("K_1", "a"); ("K_2", "b"); ("DB_USERNAME", "user"); ("DB_PASSWORD", "secret")]
             "/app" ∅ true {["envCache_K_" := undefined]} (fun _ => None) (fun _ => None) in
  snd (calls 3 (mkParams "K_" None) w) =
    replicate 3
      (mkResult None NaN
         "Successfully retrieved the key and updated the database cache. Current index: NaN").
Proof.
  intros w.
  assert (Hn : 1 < len (getEnvKeys (env w) "K_")) by (vm_compute; reflexivity).
  assert (Hready : store_ready w DATABASE "K_").
  { do 3 (split; [discriminate|]). split.
    - exists 0%nat. split; [lia|]. split; [lia|reflexivity].
    - reflexivity. }
  exact (not_a_number_is_absorbing (mkParams "K_" None) w 3
           ltac:(discriminate) Hn Hready (or_introl eq_refl)).
Defined.

(** X9. A cursor file recovers where the other two stores do not: from
    an object without [index] the first call returns no key and [NaN],
    which is written as [null]; the second returns no key and index 1;
    the third serves the second candidate.  The first candidate is
    passed over. *)
Theorem cursor_file_without_index (p : GetNextEnvKeyParams) (w : World) :
  let base := baseEnvName p in
  let envKeys := getEnvKeys (env w) base in
  default DATABASE (storage p) = DISK ->
  1 < len envKeys ->
  store_ready w DISK base ->
  store_record w DISK base = Some undefined ->
  snd (calls 3 p w) =
    [mkResult None NaN (updated_message DISK +:+ "NaN");
     mkResult None (Num 1) (updated_message DISK +:+ "1");
     expected_call DISK envKeys 2].
Proof.
  intros base envKeys. subst base envKeys. intros Hs Hn Hready Hrec.
  assert (Hc0 : cursor w DISK (baseEnvName p) = undefined)
    by (unfold cursor; by rewrite Hrec).
  destruct (getNextEnvKey_step_any p w Hn) as (w1 & Hrun1 & Henv1 & Hrec1 & Hready1);
    rewrite Hs in *; [done|].
  rewrite Hc0 in Hrun1, Hrec1. cbn [js_succ_mod stored_as arr_get js_show] in Hrun1, Hrec1.
  assert (Hc1 : cursor w1 DISK (baseEnvName p) = null)
    by (unfold cursor; by rewrite Hrec1).
  assert (Hn1 : 1 < len (getEnvKeys (env w1) (baseEnvName p))) by (by rewrite Henv1).
  destruct (getNextEnvKey_step_any p w1 Hn1) as (w2 & Hrun2 & Henv2 & Hrec2 & Hready2);
    rewrite Hs in *; [done|].
  rewrite Hc1, Henv1 in Hrun2, Hrec2.
  cbn [js_succ_mod stored_as arr_get js_show] in Hrun2, Hrec2.
  assert (Hne : (len (getEnvKeys (env w) (baseEnvName p)) =? 0) = false)
    by (apply Z.eqb_neq; lia).
  assert (Hone : Z.rem 1 (len (getEnvKeys (env w) (baseEnvName p))) = 1)
    by (rewrite Z.rem_mod_nonneg by lia; apply Z.mod_1_l; lia).
  rewrite Hne, Hone in Hrun2, Hrec2. cbn [stored_as js_show] in Hrun2, Hrec2.
  assert (Hn2 : 1 < len (getEnvKeys (env w2) (baseEnvName p)))
    by (by rewrite Henv2, Henv1).
  destruct (getNextEnvKey_step p w2 1 Hn2) as (w3 & Hrun3 & _);
    rewrite ?Hs; [done | by unfold cursor; rewrite Hrec2 |].
  rewrite Hs, Henv2, Henv1 in Hrun3.
  simpl. rewrite Hrun1, Hrun2, Hrun3. simpl. do 3 f_equal.
  pose proof (served_expected DISK (getEnvKeys (env w) (baseEnvName p)) 1 Hn) as Hexp.
  rewrite Z.mod_small in Hexp by (simpl; lia).
  exact Hexp.
Qed.

Lemma cursor_file_without_index_witness :
  let w := loadModule [("K_1", "a"); ("K_2", "b"); ("K_3", "c")] "/app"
             {["/app/env_cache_K_.json" := mkNode (Json (JObject undefined)) true true]}
             true ∅ (fun _ => None) (fun _ => None) in
  map (fun r => (key r, index r)) (snd (calls 3 (mkParams "K_" (Some DISK)) w)) =
    [(None, NaN); (None, Num 1); (Some "b", Num 2)].
Proof.
  intros w.
  assert (Hn : 1 < len (getEnvKeys (env w) "K_")) by (vm_compute; reflexivity).
  assert (Hready : store_ready w DISK "K_") by (vm_compute; repeat split; discriminate).
  rewrite (cursor_file_without_index (mkParams "K_" (Some DISK)) w eq_refl Hn Hready eq_refl).
  vm_compute. reflexivity.
Defined.

(** ** Connecting *)

Lemma first_success (f : nat -> option string) (N : nat) :
  (0 < N)%nat ->
  exists j : nat,
    (j < N)%nat /\ (forall i : nat, (i < j)%nat -> f i <> None)
    /\ (f j = None \/ S j = N).
Proof.
  induction N as [|N IH]; intros HN; [lia|].
  destruct N as [|N].
  { exists 0%nat. split; [lia|]. split; [lia|by right]. }
  destruct (IH ltac:(lia)) as (j & Hj & Hfail & [Hok | Hlast]).
  - exists j. split; [lia|]. split; [done|by left].
  - destruct (f j) as [msg|] eqn:Hfj.
    + exists (S N). split; [lia|]. split; [|by right].
      intros i Hi. destruct (decide (i = j)) as [->|]; [congruence|].
      apply Hfail. lia.
    + exists j. split; [lia|]. split; [done|by left].
Qed.

Lemma sum_Z_app (l1 l2 : list Z) : sum_Z (l1 ++ l2) = sum_Z l1 + sum_Z l2.
Proof. induction l1 as [|x l1 IH]; simpl; [done|]. rewrite IH. lia. Qed.

Lemma delays_app (l1 l2 : list event) : delays (l1 ++ l2) = delays l1 ++ delays l2.
Proof. apply omap_app. Qed.

Lemma sum_backoff (j : nat) :
  sum_Z (delays (backoff j 1 ++ [EvConnect])) = 500 * Z.of_nat j * (Z.of_nat j + 1).
Proof.
  rewrite delays_backoff, app_nil_r.
  induction j as [|j IH]; [reflexivity|].
  rewrite seq_S, map_app, sum_Z_app, IH. simpl. lia.
Qed.

(** X10. [connectWithRetry] always comes back.  Asked for no attempt it
    throws at once; asked for [attempts >= 1] it stops at the first
    attempt that succeeds, or at the last one: it has then made [j + 1]
    attempts, [j < attempts], has waited 1000, 2000, ... [1000 * j]
    milliseconds, [500 * j * (j + 1)] in all, and returns the client or
    rethrows the error of the attempt it stopped at. *)
Theorem connectWithRetry_total (attempts : Z) (w : World) :
  (attempts <= 0 ->
   connectWithRetry attempts w = (w, Throw "Connection attempts exceeded."))
  /\ (1 <= attempts ->
      exists j : nat,
        Z.of_nat j < attempts
        /\ (forall i : nat, (i < j)%nat -> connect_fault w (connects w + i)%nat <> None)
        /\ (connect_fault w (connects w + j)%nat = None \/ Z.of_nat (S j) = attempts)
        /\ connectWithRetry attempts w =
             (after_connects (S j) (backoff j 1 ++ [EvConnect]) w,
              match connect_fault w (connects w + j)%nat with
              | None => Ok mkMongoClient
              | Some msg => Throw msg
              end)
        /\ sum_Z (delays (backoff j 1 ++ [EvConnect])) = 500 * Z.of_nat j * (Z.of_nat j + 1)).
Proof.
  split.
  - intros H. unfold connectWithRetry.
    by assert (Z.to_nat attempts = 0%nat) as -> by lia.
  - intros H.
    destruct (first_success (fun i => connect_fault w (connects w + i)%nat)
                (Z.to_nat attempts) ltac:(lia)) as (j & Hj & Hfail & Hlast).
    exists j. split; [lia|]. split; [done|]. split; [|split; [|apply sum_backoff]].
    + destruct Hlast as [?|?]; [by left | right; lia].
    + unfold connectWithRetry. apply connectLoop_backoff; [done | lia | done |].
      destruct Hlast as [?|?]; [by left | right; lia].
Qed.

Lemma connectWithRetry_total_witness :
  let w := loadModule [] "/app" ∅ true ∅
             (fun k => if (k <? 2)%nat then Some "connect ETIMEDOUT" else None)
             (fun _ => None) in
  connectWithRetry 0 w = (w, Throw "Connection attempts exceeded.")
  /\ exists j : nat,
       Z.of_nat j < 5
       /\ connectWithRetry 5 w =
            (after_connects (S j) (backoff j 1 ++ [EvConnect]) w,
             match connect_fault w (connects w + j)%nat with
             | None => Ok mkMongoClient
             | Some msg => Throw msg
             end).
Proof.
  intros w.
  destruct (connectWithRetry_total 0 w) as [H0 _].
  destruct (connectWithRetry_total 5 w) as [_ H5].
  split; [apply H0; lia|].
  destruct (H5 ltac:(lia)) as (j & Hj & _ & _ & Hrun & _).
  exists j. split; [exact Hj | exact Hrun].
Defined.

(** ** What one call costs *)

Local Arguments js_succ_mod : simpl never.

Lemma world_ext (w1 w2 : World) :
  env w1 = env w2 -> dirname w1 = dirname w2 ->
  dbUsername w1 = dbUsername w2 -> dbPassword w1 = dbPassword w2 ->
  dbName w1 = dbName w2 -> dbClusterName w1 = dbClusterName w2 ->
  client w1 = client w2 -> db w1 = db w2 ->
  memoryCaches w1 = memoryCaches w2 -> files w1 = files w2 ->
  dir_writable w1 = dir_writable w2 -> fileIndex w1 = fileIndex w2 ->
  connect_fault w1 = connect_fault w2 -> connects w1 = connects w2 ->
  remote_fault w1 = remote_fault w2 -> remote_ops w1 = remote_ops w2 ->
  trace w1 = trace w2 ->
  w1 = w2.
Proof. destruct w1, w2; simpl; intros; by subst. Qed.

Ltac world_fields :=
  apply world_ext; simpl; rewrite <- ?app_assoc; first [reflexivity | lia].

Lemma handleDatabaseStorage_cached_world (envKeys : list string) (base : string)
    (w : World) (c : MongoClient) :
  client w = Some c ->
  1 < len envKeys ->
  exists (docs : gmap string jsval) (revs : list event),
    fst (handleDatabaseStorage envKeys base w) =
      with_remote docs (remote_ops w + length revs)%nat (trace w ++ revs) w
    /\ revs `prefix_of` remote_plan envKeys base w
    /\ (forall r, snd (handleDatabaseStorage envKeys base w) = Ok r ->
        revs = remote_plan envKeys base w).
Proof.
  intros Hc Hn. apply Z.ltb_lt in Hn.
  assert (Hnone : exists docs revs,
             w = with_remote docs (remote_ops w + length revs)%nat (trace w ++ revs) w
             /\ revs `prefix_of` remote_plan envKeys base w).
  { exists (fileIndex w), []. split; [|apply prefix_nil].
    unfold with_remote. simpl. rewrite Nat.add_0_r, app_nil_r. by destruct w. }
  unfold handleDatabaseStorage, getFileIndexCollection, connectToMongo, remote_plan.
  unfold remote_plan in Hnone. run_monad.
  destruct (String.eqb (dbUsername w) "" || String.eqb (dbPassword w) ""
              || String.eqb (dbName w) ""); simpl.
  { destruct Hnone as (docs & revs & ? & ?). exists docs, revs. done. }
  rewrite Hc. run_monad.
  destruct (db w) as [d|]; simpl.
  2:{ destruct Hnone as (docs & revs & ? & ?). exists docs, revs. done. }
  clear Hnone.
  unfold findOne, insertOne, updateOne, remote_op. simpl.
  set (name := "envCache_" +:+ base).
  destruct (remote_fault w (remote_ops w)); simpl.
  { exists (fileIndex w), [EvFindOne name]. split; [|split; [|done]].
    - world_fields.
    - destruct (fileIndex w !! name); by eexists. }
  destruct (fileIndex w !! name) as [i|] eqn:Hdoc; simpl.
  - rewrite Hn. simpl.
    destruct (remote_fault w (S (remote_ops w))); simpl.
    + exists (fileIndex w), [EvFindOne name; EvUpdateOne name (js_succ_mod i (len envKeys))].
      split; [|split; [|done]]; [|done].
      world_fields.
    + rewrite Hdoc. simpl.
      exists (<[name := js_succ_mod i (len envKeys)]> (fileIndex w)),
        [EvFindOne name; EvUpdateOne name (js_succ_mod i (len envKeys))].
      split; [|split; [|done]]; [|done].
      world_fields.
  - destruct (remote_fault w (S (remote_ops w))); simpl.
    + exists (fileIndex w), [EvFindOne name; EvInsertOne name (Num 0)].
      split; [|split; [|done]]; [|by eexists].
      world_fields.
    + rewrite Hn. simpl.
      destruct (remote_fault w (S (S (remote_ops w)))); simpl.
      * exists (<[name := Num 0]> (fileIndex w)),
          [EvFindOne name; EvInsertOne name (Num 0);
           EvUpdateOne name (js_succ_mod (Num 0) (len envKeys))].
        split; [|split; [|done]]; [|done].
        world_fields.
      * rewrite lookup_insert_eq. simpl.
        exists (<[name := js_succ_mod (Num 0) (len envKeys)]> (<[name := Num 0]> (fileIndex w))),
          [EvFindOne name; EvInsertOne name (Num 0);
           EvUpdateOne name (js_succ_mod (Num 0) (len envKeys))].
        split; [|split; [|done]]; [|done].
        world_fields.
Qed.

Lemma remote_plan_prefix (envKeys : list string) (base : string) (w : World)
    (revs : list event) :
  revs `prefix_of` remote_plan envKeys base w ->
  (length revs <= 3)%nat /\ delays revs = [].
Proof.
  intros Hp. split.
  - apply prefix_length in Hp. unfold remote_plan in Hp.
    destruct (fileIndex w !! ("envCache_" +:+ base)); simpl in Hp; lia.
  - destruct Hp as [k Hk]. apply (f_equal delays) in Hk.
    rewrite delays_app in Hk.
    assert (Hnil : delays (remote_plan envKeys base w) = []).
    { unfold remote_plan. by destruct (fileIndex w !! ("envCache_" +:+ base)). }
    rewrite Hnil in Hk. symmetry in Hk. by apply app_eq_nil in Hk as [? _].
Qed.

Lemma connectWithRetry_outcome (w : World) :
  exists j : nat,
    (j < 5)%nat
    /\ (connect_fault w (connects w + j)%nat = None
        \/ forall i : nat, (i < 5)%nat -> connect_fault w (connects w + i)%nat <> None)
    /\ connectWithRetry 5 w =
         (after_connects (S j) (backoff j 1 ++ [EvConnect]) w,
          match connect_fault w (connects w + j)%nat with
          | None => Ok mkMongoClient
          | Some msg => Throw msg
          end).
Proof.
  destruct (first_success (fun i => connect_fault w (connects w + i)%nat) 5 ltac:(lia))
    as (j & Hj & Hfail & Hlast).
  exists j. split; [done|]. split.
  - destruct (connect_fault w (connects w + j)%nat) as [msg|] eqn:Hf; [|by left].
    right. destruct Hlast as [?|Hlast]; [done|].
    intros i Hi. destruct (decide (i = j)) as [->|]; [congruence|].
    apply Hfail. lia.
  - unfold connectWithRetry. apply connectLoop_backoff; [simpl; lia | lia | done |].
    destruct Hlast as [?|?]; [by left | right; lia].
Qed.

Lemma handleDatabaseStorage_world (envKeys : list string) (base : string) (w : World) :
  1 < len envKeys ->
  exists (k : nat) (cevs : list event) (c : option MongoClient) (d : option string)
         (docs : gmap string jsval) (revs : list event),
    fst (handleDatabaseStorage envKeys base w) =
      with_remote docs (remote_ops w + length revs)%nat (trace w ++ cevs ++ revs)
        (set_db d (set_client c (after_connects k cevs w)))
    /\ (k <= 5)%nat /\ sum_Z (delays cevs) <= 10000
    /\ (length revs <= 3)%nat /\ delays revs = []
    /\ (client w <> None -> k = 0%nat /\ c = client w).
Proof.
  intros Hn.
  destruct (client w) as [c|] eqn:Hc.
  { destruct (handleDatabaseStorage_cached_world envKeys base w c Hc Hn)
      as (docs & revs & Hw & Hp & _).
    destruct (remote_plan_prefix _ _ _ _ Hp) as [Hlen Hdel].
    exists 0%nat, [], (Some c), (db w), docs, revs.
    split; [|repeat split; try done; lia].
    rewrite Hw. apply world_ext; simpl; rewrite ?Nat.add_0_r; done. }
  assert (Hsame : exists k cevs c d docs revs,
            w = with_remote docs (remote_ops w + length revs)%nat (trace w ++ cevs ++ revs)
                  (set_db d (set_client c (after_connects k cevs w)))
            /\ (k <= 5)%nat /\ sum_Z (delays cevs) <= 10000
            /\ (length revs <= 3)%nat /\ delays revs = []
            /\ (@None MongoClient <> None -> k = 0%nat /\ c = None)).
  { exists 0%nat, [], None, (db w), (fileIndex w), [].
    split; [|repeat split; simpl; try done; lia].
    apply world_ext; simpl; rewrite ?Nat.add_0_r, ?app_nil_r; done. }
  destruct (String.eqb (dbUsername w) "" || String.eqb (dbPassword w) ""
              || String.eqb (dbName w) "") eqn:Hcred.
  { unfold handleDatabaseStorage. run_monad. by rewrite Hcred. }
  clear Hsame.
  destruct (connectWithRetry_outcome w) as (j & Hj & _ & Hr).
  assert (Hsum : sum_Z (delays (backoff j 1 ++ [EvConnect])) <= 10000).
  { rewrite sum_backoff. nia. }
  destruct (connect_fault w (connects w + j)%nat) as [msg|].
  - exists (S j), (backoff j 1 ++ [EvConnect]), None, (db w), (fileIndex w), [].
    split; [|repeat split; simpl; try done; lia].
    unfold handleDatabaseStorage, getFileIndexCollection, connectToMongo. run_monad.
    rewrite Hcred, Hc, Hr. simpl.
    apply world_ext; simpl; rewrite ?Nat.add_0_r, ?app_nil_r; done.
  - rewrite (handleDatabaseStorage_connected envKeys base w _ mkMongoClient Hc Hcred Hr).
    set (w2 := set_db (Some (dbName w))
                 (set_client (Some mkMongoClient)
                    (after_connects (S j) (backoff j 1 ++ [EvConnect]) w))).
    destruct (handleDatabaseStorage_cached_world envKeys base w2 mkMongoClient eq_refl Hn)
      as (docs & revs & Hw & Hp & _).
    destruct (remote_plan_prefix _ _ _ _ Hp) as [Hlen Hdel].
    exists (S j), (backoff j 1 ++ [EvConnect]), (Some mkMongoClient), (Some (dbName w)),
      docs, revs.
    split; [|repeat split; try done; lia].
    rewrite Hw. apply world_ext; simpl; rewrite <- ?app_assoc; done.
Qed.

Lemma local_call_no_network (p : GetNextEnvKeyParams) (w : World) :
  let w' := fst (getNextEnvKey p w) in
  default DATABASE (storage p) <> DATABASE ->
  connects w' = connects w /\ remote_ops w' = remote_ops w
  /\ client w' = client w /\ fileIndex w' = fileIndex w
  /\ delays (trace w') = delays (trace w).
Proof.
  intros w' Hs. subst w'. rewrite getNextEnvKey_world.
  destruct (candidates_cases (getEnvKeys (env w) (baseEnvName p))) as [H | [[v H] | Hn]].
  - by rewrite (try_no_candidates p w H).
  - by rewrite (try_single_key p w v H).
  - rewrite getNextEnvKey_try_dispatch by done. simpl.
    destruct (default DATABASE (storage p)); [| |done].
    + pose proof (handleDiskStorage_outcome _ (cacheFilePath (dirname w) (baseEnvName p)) w Hn)
        as Hout.
      destruct (handleDiskStorage _ _ w) as [w' [r|msg]]; simpl.
      * destruct Hout as (i & rd & _ & _ & ->). simpl.
        rewrite delays_app. simpl. by rewrite app_nil_r.
      * destruct Hout as [-> | [t ->]]; simpl; rewrite delays_app; simpl;
          by rewrite app_nil_r.
    + by rewrite (handleMemoryStorage_run _ _ w Hn).
Qed.

(** X11. Whatever the parameters and the state of files, network and
    remote store, one call makes at most five connection attempts,
    waits at most 10000 milliseconds between them and issues at most
    three remote operations.  Unless the remote backend is selected it
    makes none of these; with a client already cached it never
    connects. *)
Theorem call_within_budget (p : GetNextEnvKeyParams) (w : World) :
  let w' := fst (getNextEnvKey p w) in
  within_budget w w'
  /\ (default DATABASE (storage p) <> DATABASE ->
      connects w' = connects w /\ remote_ops w' = remote_ops w
      /\ client w' = client w /\ fileIndex w' = fileIndex w
      /\ delays (trace w') = delays (trace w))
  /\ (client w <> None -> connects w' = connects w /\ client w' = client w).
Proof.
  intros w'. subst w'. rewrite getNextEnvKey_world.
  assert (Hrefl : within_budget w w
            /\ (default DATABASE (storage p) <> DATABASE ->
                connects w = connects w /\ remote_ops w = remote_ops w
                /\ client w = client w /\ fileIndex w = fileIndex w
                /\ delays (trace w) = delays (trace w))
            /\ (client w <> None -> connects w = connects w /\ client w = client w)).
  { unfold within_budget. repeat split; lia. }
  destruct (candidates_cases (getEnvKeys (env w) (baseEnvName p))) as [H | [[v H] | Hn]].
  - by rewrite (try_no_candidates p w H).
  - by rewrite (try_single_key p w v H).
  - clear Hrefl. rewrite getNextEnvKey_try_dispatch by done. simpl.
    destruct (default DATABASE (storage p)).
    + pose proof (handleDiskStorage_outcome _ (cacheFilePath (dirname w) (baseEnvName p)) w Hn)
        as Hout.
      destruct (handleDiskStorage _ _ w) as [w' [r|msg]]; simpl.
      * destruct Hout as (i & rd & _ & _ & ->). unfold within_budget. simpl.
        rewrite delays_app. simpl. rewrite app_nil_r. repeat split; lia.
      * destruct Hout as [-> | [t ->]]; unfold within_budget; simpl;
          rewrite delays_app; simpl; rewrite app_nil_r; repeat split; lia.
    + rewrite (handleMemoryStorage_run _ _ w Hn). unfold within_budget. simpl.
      repeat split; lia.
    + destruct (handleDatabaseStorage_world _ (baseEnvName p) w Hn)
        as (k & cevs & c & d & docs & revs & -> & Hk & Hsum & Hlen & Hdel & Hcached).
      unfold within_budget. simpl.
      rewrite !delays_app, Hdel, app_nil_r, sum_Z_app.
      split; [repeat split; lia|]. split; [done|].
      intros Hc. destruct (Hcached Hc) as [-> ->]. split; [lia|done].
Qed.

Lemma call_within_budget_witness :
  let w := loadModule
             [("K_1", "a"); ("K_2", "b"); ("DB_USERNAME", "user"); ("DB_PASSWORD", "secret")]
             "/app" ∅ true ∅ (fun _ => Some "connect ECONNREFUSED") (fun _ => None) in
  let w1 := fst (getNextEnvKey (mkParams "K_" (Some MEMORY)) w) in
  connects (fst (getNextEnvKey (mkParams "K_" None) w)) = 5%nat
  /\ sum_Z (delays (trace (fst (getNextEnvKey (mkParams "K_" None) w)))) = 10000
  /\ connects w1 = connects w /\ remote_ops w1 = remote_ops w.
Proof.
  intros w w1.
  split; [vm_compute; reflexivity|]. split; [vm_compute; reflexivity|].
  destruct (call_within_budget (mkParams "K_" (Some MEMORY)) w) as (_ & H & _).
  destruct (H ltac:(discriminate)) as (Hc & Ho & _). split; [exact Hc | exact Ho].
Defined.

(** X12. A connection, once made, is kept, also when the operation after
    it fails; a connection that could not be made is not remembered.
    For a remote call over more than one key with credentials set and
    no client yet: the call leaves a client behind exactly when one of
    the next five attempts succeeds, and then [db] names [dbName]. *)
Theorem connection_is_cached (p : GetNextEnvKeyParams) (w : World) :
  let w' := fst (getNextEnvKey p w) in
  default DATABASE (storage p) = DATABASE ->
  1 < len (getEnvKeys (env w) (baseEnvName p)) ->
  dbUsername w <> "" -> dbPassword w <> "" -> dbName w <> "" ->
  client w = None ->
  (client w' <> None
   <-> exists j : nat, (j < 5)%nat /\ connect_fault w (connects w + j)%nat = None)
  /\ (client w' <> None -> db w' = Some (dbName w)).
Proof.
  intros w'. subst w'. intros Hs Hn Hu Hp Hd Hc.
  rewrite getNextEnvKey_world, getNextEnvKey_try_dispatch, Hs by done. simpl.
  pose proof (credentials_set _ _ _ Hu Hp Hd) as Hcred.
  destruct (connectWithRetry_outcome w) as (j & Hj & Hall & Hr).
  destruct (connect_fault w (connects w + j)%nat) as [msg|] eqn:Hf.
  - assert (Hw : fst (handleDatabaseStorage (getEnvKeys (env w) (baseEnvName p))
                        (baseEnvName p) w)
                 = after_connects (S j) (backoff j 1 ++ [EvConnect]) w).
    { unfold handleDatabaseStorage, getFileIndexCollection, connectToMongo. run_monad.
      by rewrite Hcred, Hc, Hr. }
    rewrite Hw. simpl. rewrite Hc. split; [|done]. split; [done|].
    intros (j' & Hj' & Hok). destruct Hall as [?|Hall]; [done|].
    exfalso. by apply (Hall j' Hj').
  - rewrite (handleDatabaseStorage_connected _ _ w _ mkMongoClient Hc Hcred Hr).
    set (w2 := set_db (Some (dbName w))
                 (set_client (Some mkMongoClient)
                    (after_connects (S j) (backoff j 1 ++ [EvConnect]) w))).
    destruct (handleDatabaseStorage_cached_world (getEnvKeys (env w) (baseEnvName p))
                (baseEnvName p) w2 mkMongoClient eq_refl Hn) as (docs & revs & -> & _).
    simpl. split; [|done]. split; [|done]. intros _. by exists j.
Qed.

Lemma connection_is_cached_witness :
  let w := loadModule
             [("K_1", "a"); ("K_2", "b"); ("DB_USERNAME", "user"); ("DB_PASSWORD", "secret")]
             "/app" ∅ true ∅
             (fun k => if (k <? 3)%nat then Some "connect ETIMEDOUT" else None)
             (fun _ => Some "not authorized") in
  let p := mkParams "K_" None in
  snd (getNextEnvKey p w) = error_result "not authorized"
  /\ client (fst (getNextEnvKey p w)) <> None
  /\ db (fst (getNextEnvKey p w)) = Some "defaultDbName".
Proof.
  intros w p. split; [vm_compute; reflexivity|].
  assert (Hn : 1 < len (getEnvKeys (env w) (baseEnvName p))) by (vm_compute; reflexivity).
  destruct (connection_is_cached p w eq_refl Hn ltac:(discriminate) ltac:(discriminate)
              ltac:(discriminate) eq_refl) as [Hiff Hdb].
  assert (Hc : client (fst (getNextEnvKey p w)) <> None).
  { apply Hiff. exists 3%nat. split; [lia|reflexivity]. }
  split; [exact Hc | exact (Hdb Hc)].
Defined.

(** X13. With a client cached, a remote call over more than one key
    issues [findOne], then [insertOne] with index 0 if no document was
    found, then [updateOne] with the next index, and stops at the first
    of them that fails; it returns a result that is not an error only
    after all of them.  (The document holds no number beyond the safe
    integers, so that the next index is exact.) *)
Theorem remote_operations_in_order (p : GetNextEnvKeyParams) (w : World)
    (c : MongoClient) :
  let w' := fst (getNextEnvKey p w) in
  let envKeys := getEnvKeys (env w) (baseEnvName p) in
  default DATABASE (storage p) = DATABASE ->
  1 < len envKeys ->
  client w = Some c ->
  within_safe_integers (cursor w DATABASE (baseEnvName p)) = true ->
  exists revs : list event,
    trace w' = trace w ++ revs
    /\ remote_ops w' = (remote_ops w + length revs)%nat
    /\ revs `prefix_of` remote_plan envKeys (baseEnvName p) w
    /\ (is_error (snd (getNextEnvKey p w)) = false ->
        revs = remote_plan envKeys (baseEnvName p) w).
Proof.
  intros w' envKeys. subst w' envKeys. intros Hs Hn Hc _.
  destruct (handleDatabaseStorage_cached_world (getEnvKeys (env w) (baseEnvName p))
              (baseEnvName p) w c Hc Hn) as (docs & revs & Hw & Hp & Hok).
  exists revs.
  assert (Htry : getNextEnvKey_try p w
                 = handleDatabaseStorage (getEnvKeys (env w) (baseEnvName p))
                     (baseEnvName p) w)
    by (by rewrite getNextEnvKey_try_dispatch, Hs by done).
  rewrite getNextEnvKey_world, Htry, Hw. simpl.
  split; [done|]. split; [done|]. split; [done|].
  unfold getNextEnvKey. rewrite Htry.
  destruct (handleDatabaseStorage _ _ w) as [w' [r|msg]]; simpl.
  - intros _. by apply (Hok r).
  - unfold is_error. simpl. by destruct msg.
Qed.

Lemma remote_operations_in_order_witness :
  let w := loadModule
             [("K_1", "a"); ("K_2", "b"); ("DB_USERNAME", "user"); ("DB_PASSWORD", "secret")]
             "/app" ∅ true ∅ (fun _ => None) (fun _ => None) in
  let w1 := fst (getNextEnvKey (mkParams "K_" None) w) in
  exists revs : list event,
    trace (fst (getNextEnvKey (mkParams "K_" None) w1)) = trace w1 ++ revs
    /\ revs = [EvFindOne "envCache_K_"; EvUpdateOne "envCache_K_" (Num 0)].
Proof.
  intros w w1.
  assert (Hn : 1 < len (getEnvKeys (env w1) "K_")) by (vm_compute; reflexivity).
  assert (Hsafe : within_safe_integers (cursor w1 DATABASE "K_") = true)
    by (vm_compute; reflexivity).
  destruct (remote_operations_in_order (mkParams "K_" None) w1 mkMongoClient
              eq_refl Hn eq_refl Hsafe) as (revs & Ht & _ & _ & Hfull).
  exists revs. split; [exact Ht|]. rewrite Hfull; [|vm_compute; reflexivity].
  vm_compute. reflexivity.
Defined.

(** X14. The memory backend cannot fail and has no effect outside
    [memoryCaches]: a call that selects it returns an error only when
    there is no candidate, and leaves a world that differs from the one
    before at most in [memoryCaches] (no file, no connection, no remote
    operation, no delay). *)
Theorem memory_call_changes_memory_only (p : GetNextEnvKeyParams) (w : World) :
  let w' := fst (getNextEnvKey p w) in
  default DATABASE (storage p) = MEMORY ->
  w' = set_memoryCaches (memoryCaches w') w
  /\ (is_error (snd (getNextEnvKey p w)) = true
      <-> getEnvKeys (env w) (baseEnvName p) = []).
Proof.
  intros w'. subst w'. intros Hs. unfold getNextEnvKey.
  destruct (candidates_cases (getEnvKeys (env w) (baseEnvName p))) as [H | [[v H] | Hn]].
  - rewrite (try_no_candidates p w H). simpl. rewrite world_eta. done.
  - rewrite (try_single_key p w v H). simpl. rewrite world_eta, H. done.
  - rewrite getNextEnvKey_try_dispatch, Hs by done. simpl.
    rewrite (handleMemoryStorage_run _ _ w Hn). simpl. split; [done|].
    split; [by destruct (js_succ_mod _ _)|].
    intros H. rewrite H in Hn. unfold len in Hn. simpl in Hn. lia.
Qed.

Lemma memory_call_changes_memory_only_witness :
  let w := loadModule [("K_1", "a"); ("K_2", "b")] "/app" ∅ false ∅
             (fun _ => Some "connect ECONNREFUSED") (fun _ => Some "unreachable") in
  let p := mkParams "K_" (Some MEMORY) in
  fst (getNextEnvKey p w) = set_memoryCaches (memoryCaches (fst (getNextEnvKey p w))) w
  /\ (is_error (snd (getNextEnvKey p w)) = true <-> getEnvKeys (env w) "K_" = []).
Proof. intros w p. exact (memory_call_changes_memory_only p w eq_refl). Defined.

(** X15. The file backend, over more than one key, reads the cursor file
    once and then writes it at most once, touching no other file and
    nothing else of the world; it fails exactly when the file holds the
    JSON text [null] or the write is refused. *)
Theorem disk_call_reads_then_writes (p : GetNextEnvKeyParams) (w : World) :
  let w' := fst (getNextEnvKey p w) in
  let path := cacheFilePath (dirname w) (baseEnvName p) in
  default DATABASE (storage p) = DISK ->
  1 < len (getEnvKeys (env w) (baseEnvName p)) ->
  (exists (nodes : gmap string fnode) (t : list event),
     w' = with_files_trace nodes (trace w ++ EvReadFile path :: t) w
     /\ (t = [] \/ exists text, t = [EvWriteFile path text])
     /\ forall q, q <> path -> nodes !! q = files w !! q)
  /\ (is_error (snd (getNextEnvKey p w)) = false
      <-> disk_cache w path <> JNull /\ write_permitted w path).
Proof.
  intros w' path. subst w' path. intros Hs Hn. unfold getNextEnvKey.
  rewrite getNextEnvKey_try_dispatch, Hs by done. simpl.
  set (path := cacheFilePath (dirname w) (baseEnvName p)).
  destruct (disk_cache w path) as [|i] eqn:Hc.
  { rewrite (handleDiskStorage_null _ _ _ Hc). simpl. split.
    - exists (files w), []. split; [by destruct w|]. split; [by left|done].
    - split; [done|]. by intros [? _]. }
  rewrite (handleDiskStorage_run _ _ w i Hn Hc).
  unfold writeFile, write_permitted. simpl.
  destruct (files w !! path) as [nd|] eqn:Hf; simpl.
  - destruct (node_writable nd); simpl.
    + split.
      * eexists _, [_]. split; [|split; [right; by eexists|]].
        -- apply world_ext; simpl; rewrite <- ?app_assoc; reflexivity.
        -- intros q Hq. by rewrite lookup_insert_ne.
      * split; [done|]. intros _. by destruct (js_succ_mod _ _).
    + split.
      * eexists (files w), [_]. split; [|split; [right; by eexists|done]].
        apply world_ext; simpl; rewrite <- ?app_assoc; reflexivity.
      * split; [done|]. by intros [_ ?].
  - destruct (dir_writable w); simpl.
    + split.
      * eexists _, [_]. split; [|split; [right; by eexists|]].
        -- apply world_ext; simpl; rewrite <- ?app_assoc; reflexivity.
        -- intros q Hq. by rewrite lookup_insert_ne.
      * split; [done|]. intros _. by destruct (js_succ_mod _ _).
    + split.
      * eexists (files w), [_]. split; [|split; [right; by eexists|done]].
        apply world_ext; simpl; rewrite <- ?app_assoc; reflexivity.
      * split; [done|]. by intros [_ ?].
Qed.

Lemma disk_call_reads_then_writes_witness :
  let w := loadModule [("K_1", "a"); ("K_2", "b")] "/app"
             {["/app/env_cache_K_.json" := mkNode (Json (JObject (Num 1))) true false]}
             true ∅ (fun _ => None) (fun _ => None) in
  let p := mkParams "K_" (Some DISK) in
  is_error (snd (getNextEnvKey p w)) = true
  /\ files (fst (getNextEnvKey p w)) = files w.
Proof.
  intros w p.
  assert (Hn : 1 < len (getEnvKeys (env w) (baseEnvName p))) by (vm_compute; reflexivity).
  destruct (disk_call_reads_then_writes p w eq_refl Hn) as [_ Hiff].
  split; [|vm_compute; reflexivity].
  destruct (is_error (snd (getNextEnvKey p w))) eqn:He; [done|].
  destruct (proj1 Hiff eq_refl) as [_ Hw]. vm_compute in Hw. discriminate.
Defined.

(** ** Credentials *)

Lemma getNextEnvKey_credentials (p : GetNextEnvKeyParams) (w : World) :
  let w' := fst (getNextEnvKey p w) in
  dbUsername w' = dbUsername w /\ dbPassword w' = dbPassword w /\ dbName w' = dbName w.
Proof.
  intros w'. subst w'. rewrite getNextEnvKey_world.
  destruct (candidates_cases (getEnvKeys (env w) (baseEnvName p))) as [H | [[v H] | Hn]].
  - by rewrite (try_no_candidates p w H).
  - by rewrite (try_single_key p w v H).
  - rewrite getNextEnvKey_try_dispatch by done. simpl.
    destruct (default DATABASE (storage p)).
    + pose proof (handleDiskStorage_outcome _ (cacheFilePath (dirname w) (baseEnvName p)) w Hn)
        as Hout.
      destruct (handleDiskStorage _ _ w) as [w' [r|msg]]; simpl.
      * by destruct Hout as (i & rd & _ & _ & ->).
      * by destruct Hout as [-> | [t ->]].
    + by rewrite (handleMemoryStorage_run _ _ w Hn).
    + by destruct (handleDatabaseStorage_world _ (baseEnvName p) w Hn)
        as (k & cevs & c & d & docs & revs & -> & _).
Qed.

Lemma incomplete_credentials_step (p : GetNextEnvKeyParams) (w : World) :
  let w' := fst (getNextEnvKey p w) in
  dbUsername w = "" \/ dbPassword w = "" \/ dbName w = "" ->
  connects w' = connects w /\ remote_ops w' = remote_ops w
  /\ client w' = client w /\ fileIndex w' = fileIndex w.
Proof.
  intros w' Hmiss. subst w'.
  pose proof (local_call_no_network p w) as Hother. simpl in Hother.
  destruct (default DATABASE (storage p)) eqn:Hs;
    [by destruct Hother as (? & ? & ? & ? & _)..|].
  rewrite getNextEnvKey_world.
  destruct (candidates_cases (getEnvKeys (env w) (baseEnvName p))) as [H | [[v H] | Hn]].
  - by rewrite (try_no_candidates p w H).
  - by rewrite (try_single_key p w v H).
  - by rewrite (try_missing_credentials p w Hn Hs Hmiss).
Qed.

(** X16. With incomplete credentials the module never goes to the
    network: if [dbUsername] or [dbPassword] is empty ([DB_USERNAME] or
    [DB_PASSWORD] not set, or set to nothing) or [dbName] is empty, then
    after any sequence of calls no connection has been attempted, no
    remote operation issued and no document changed, and every remote
    call over more than one key returns the credentials error. *)
Theorem incomplete_credentials_never_connect (w : World)
    (ps : list GetNextEnvKeyParams) :
  dbUsername w = "" \/ dbPassword w = "" \/ dbName w = "" ->
  connects (run ps w) = connects w /\ remote_ops (run ps w) = remote_ops w
  /\ client (run ps w) = client w /\ fileIndex (run ps w) = fileIndex w
  /\ forall p : GetNextEnvKeyParams,
       default DATABASE (storage p) = DATABASE ->
       1 < len (getEnvKeys (env w) (baseEnvName p)) ->
       snd (getNextEnvKey p (run ps w)) = error_result credentials_message.
Proof.
  revert w. induction ps as [|p0 ps IH]; intros w Hmiss; simpl.
  - do 4 (split; [done|]). intros p Hs Hn. unfold getNextEnvKey.
    by rewrite (try_missing_credentials p w Hn Hs Hmiss).
  - destruct (incomplete_credentials_step p0 w Hmiss) as (Hc & Ho & Hcl & Hd).
    destruct (getNextEnvKey_credentials p0 w) as (Hu & Hp & Hn).
    destruct (IH (fst (getNextEnvKey p0 w))) as (Hc' & Ho' & Hcl' & Hd' & Herr).
    { by rewrite Hu, Hp, Hn. }
    rewrite Hc', Ho', Hcl', Hd'. do 4 (split; [done|]).
    intros p Hs Hlen. apply Herr; [done|]. by rewrite getNextEnvKey_env.
Qed.

Lemma incomplete_credentials_never_connect_witness :
  let w := loadModule
             [("K_1", "a"); ("K_2", "b"); ("DB_USERNAME", "user"); ("DB_PASSWORD", "")]
             "/app" ∅ true ∅ (fun _ => None) (fun _ => None) in
  let ps := [mkParams "K_" None; mkParams "K_" (Some DISK); mkParams "K_" None] in
  connects (run ps w) = 0%nat
  /\ snd (getNextEnvKey (mkParams "K_" None) (run ps w)) = error_result credentials_message.
Proof.
  intros w ps.
  destruct (incomplete_credentials_never_connect w ps) as (Hc & _ & _ & _ & Herr).
  { right; left. reflexivity. }
  split; [exact Hc|]. apply Herr; [reflexivity | vm_compute; reflexivity].
Defined.

(** ** Prefixes *)

Lemma prefix_trans (a b c : string) :
  String.prefix a b = true -> String.prefix b c = true -> String.prefix a c = true.
Proof.
  revert b c. induction a as [|x a IH]; intros [|y b] [|z c]; simpl; try done.
  destruct (Ascii.ascii_dec x y) as [->|]; [|done].
  destruct (Ascii.ascii_dec y z) as [->|]; [|done].
  apply IH.
Qed.

(** X17. A longer prefix selects less: if [p1] is a prefix of [p2], the
    candidates of [p2] are a subsequence of the candidates of [p1], in
    the same order. *)
Theorem longer_prefix_selects_sublist (e : Env) (p1 p2 : string) :
  String.prefix p1 p2 = true ->
  getEnvKeys e p2 `sublist_of` getEnvKeys e p1.
Proof.
  intros Hp. unfold getEnvKeys. generalize (Object_keys e) as keys.
  induction keys as [|k keys IH]; simpl; [constructor|].
  destruct (startsWith k p2) eqn:H2.
  - assert (startsWith k p1 = true) as -> by (by apply (prefix_trans p1 p2 k)).
    simpl. destruct (truthy (env_get e k)) eqn:Ht; [|exact IH].
    simpl. destruct (env_get e k); [|done]. by constructor.
  - destruct (startsWith k p1); [|exact IH].
    simpl. destruct (truthy (env_get e k)) eqn:Ht; [|exact IH].
    simpl. destruct (env_get e k); [|done]. by constructor.
Qed.

Lemma longer_prefix_selects_sublist_witness :
  getEnvKeys [("API_KEY_1", "k1"); ("API_URL", "u"); ("API_KEY_2", "k2")] "API_KEY_"
  `sublist_of`
  getEnvKeys [("API_KEY_1", "k1"); ("API_URL", "u"); ("API_KEY_2", "k2")] "API_".
Proof. apply longer_prefix_selects_sublist. reflexivity. Defined.

(** X18. The empty prefix selects everything: on a configuration with
    distinct names, [getEnvKeys] with the empty prefix returns every
    non-empty value of the configuration, the connection settings
    among them. *)
Theorem empty_prefix_selects_all (e : Env) :
  NoDup (Object_keys e) ->
  getEnvKeys e "" = nonempty_values e.
Proof.
  intros Hnd. unfold getEnvKeys.
  rewrite (getEnvKeys_sub e e ""); [|intros k v; by apply env_get_NoDup].
  unfold resolve_spec, nonempty_values. f_equal.
  apply filter_ext. intros [k v]. unfold startsWith. simpl. by destruct k.
Qed.

Lemma empty_prefix_selects_all_witness :
  getEnvKeys [("API_KEY_1", "k1"); ("EMPTY", ""); ("DB_PASSWORD", "secret")] ""
  = ["k1"; "secret"].
Proof.
  apply (empty_prefix_selects_all
           [("API_KEY_1", "k1"); ("EMPTY", ""); ("DB_PASSWORD", "secret")]).
  apply NoDup_ListNoDup. repeat constructor; simpl; intuition discriminate.
Defined.

(** ** Rotations side by side *)

Lemma memory_result_depends (p : GetNextEnvKeyParams) (w1 w2 : World) :
  default DATABASE (storage p) = MEMORY ->
  env w1 = env w2 ->
  store_record w1 MEMORY (baseEnvName p) = store_record w2 MEMORY (baseEnvName p) ->
  snd (getNextEnvKey p w1) = snd (getNextEnvKey p w2).
Proof.
  intros Hs Henv Hrec. unfold getNextEnvKey.
  destruct (candidates_cases (getEnvKeys (env w1) (baseEnvName p))) as [H | [[v H] | Hn]].
  - rewrite (try_no_candidates p w1 H). rewrite Henv in H.
    by rewrite (try_no_candidates p w2 H).
  - rewrite (try_single_key p w1 v H). rewrite Henv in H.
    by rewrite (try_single_key p w2 v H).
  - rewrite (getNextEnvKey_try_dispatch p w1), Hs by done. simpl.
    rewrite (handleMemoryStorage_run _ _ w1 Hn). rewrite Henv in Hn.
    rewrite (getNextEnvKey_try_dispatch p w2), Hs by done. simpl.
    rewrite (handleMemoryStorage_run _ _ w2 Hn). simpl.
    unfold store_record in Hrec. by rewrite Henv, Hrec.
Qed.

(** X19. A rotation in memory is not disturbed by other calls: the
    result of a memory call for a prefix is the same whether or not a
    call for another prefix, or for the same prefix on another backend,
    was made just before, whatever that call did. *)
Theorem memory_rotation_undisturbed (pA pB : GetNextEnvKeyParams) (w : World) :
  default DATABASE (storage pA) = MEMORY ->
  default DATABASE (storage pB) <> MEMORY \/ baseEnvName pB <> baseEnvName pA ->
  snd (getNextEnvKey pA (fst (getNextEnvKey pB w))) = snd (getNextEnvKey pA w).
Proof.
  intros HA Hother. apply memory_result_depends; [done | apply getNextEnvKey_env |].
  apply memory_record_frame. destruct Hother as [?|?]; [left | right]; congruence.
Qed.

Lemma memory_rotation_undisturbed_witness :
  let w := loadModule [("A_1", "a1"); ("A_2", "a2"); ("B_1", "b1"); ("B_2", "b2")]
             "/app" ∅ true ∅ (fun _ => None) (fun _ => None) in
  let w1 := fst (getNextEnvKey (mkParams "A_" (Some MEMORY)) w) in
  snd (getNextEnvKey (mkParams "A_" (Some MEMORY))
         (fst (getNextEnvKey (mkParams "B_" (Some MEMORY)) w1)))
  = mkResult (Some "a2") (Num 0)
      "Successfully retrieved the key and updated the memory cache. Current index: 0".
Proof.
  intros w w1.
  rewrite (memory_rotation_undisturbed (mkParams "A_" (Some MEMORY))
             (mkParams "B_" (Some MEMORY)) w1 eq_refl);
    [vm_compute; reflexivity | right; discriminate].
Defined.

(** * Prefixes that name a member of [Object.prototype] *)

Lemma inherited_record (m : gmap string jsval) (q : string) :
  inherited_name q = true -> m !! q = None -> memoryCaches_get m q = Some undefined.
Proof.
  unfold inherited_name, memoryCaches_get. intros Hq ->.
  by rewrite Hq.
Qed.

(** C2. For a prefix that is the name of a member of [Object.prototype]
    the rotation never starts.  [memoryCaches[baseEnvName]] is then the
    inherited member, so the test [if (!memoryCaches[baseEnvName])] does
    not create the record with index 0: on a module whose [memoryCaches]
    has no entry of its own for the prefix, as a freshly loaded one,
    with more than one candidate, every one of [m] consecutive calls
    with the memory backend returns the key [undefined] and the index
    [NaN], and not [candidates[(k - 1) mod n]] with [k mod n]. *)
Theorem rotation_lost_for_inherited_name (p : GetNextEnvKeyParams) (w : World) (m : nat) :
  let base := baseEnvName p in
  let envKeys := getEnvKeys (env w) base in
  default DATABASE (storage p) = MEMORY ->
  inherited_name base = true ->
  memoryCaches w !! base = None ->
  1 < len envKeys ->
  snd (calls m p w) = replicate m (mkResult None NaN (updated_message MEMORY +:+ "NaN"))
  /\ ((0 < m)%nat ->
      snd (calls m p w)
        <> map (fun k : nat => expected_call MEMORY envKeys (Z.of_nat k)) (seq 1 m)).
Proof.
  intros base envKeys. subst base envKeys. intros Hs Hq Hown Hn.
  assert (Hcalls : snd (calls m p w)
                   = replicate m (mkResult None NaN (updated_message MEMORY +:+ "NaN"))).
  { pose proof (calls_not_a_number p m w) as H. simpl in H. rewrite Hs in H.
    apply H; [discriminate | done | done |].
    left. unfold cursor, store_record. by rewrite (inherited_record _ _ Hq Hown). }
  split; [exact Hcalls|].
  intros Hm. rewrite Hcalls.
  destruct m as [|m]; [lia|]. simpl. unfold expected_call. intros Heq.
  discriminate Heq.
Qed.

Lemma rotation_lost_for_inherited_name_witness :
  let w := loadModule [("toString1", "a"); ("toString2", "b")] "/app" ∅ true ∅
             (fun _ => None) (fun _ => None) in
  let p := mkParams "toString" (Some MEMORY) in
  snd (calls 3 p w) =
    replicate 3
      (mkResult None NaN
         "Successfully retrieved the key and updated the memory cache. Current index: NaN")
  /\ snd (calls 3 p w) <> map (expected_call MEMORY ["a"; "b"]) [1; 2; 3].
Proof.
  intros w p.
  assert (Hq : inherited_name (baseEnvName p) = true) by (vm_compute; reflexivity).
  assert (Hown : memoryCaches w !! baseEnvName p = None) by (vm_compute; reflexivity).
  assert (Hn : 1 < len (getEnvKeys (env w) (baseEnvName p))) by (vm_compute; reflexivity).
  destruct (rotation_lost_for_inherited_name p w 3 eq_refl Hq Hown Hn) as [Hcalls Hne].
  split; [exact Hcalls|]. apply Hne. lia.
Defined.

(** C6. The cursor invariant does not hold of every state reached by
    calls of [getNextEnvKey].  On the freshly loaded module, whatever
    its files and remote documents, one call with the memory backend for
    a prefix that is the name of a member of [Object.prototype] and has
    [n > 1] candidates reads the index [undefined] of the inherited
    member and stores [NaN] as the cursor of that prefix, which is not
    an integer of [0, n). *)
Theorem invariant_lost_for_inherited_name (p : GetNextEnvKeyParams) (e : Env)
    (dir : string) (fs : gmap string fnode) (creatable : bool) (docs : gmap string jsval)
    (cf rf : nat -> option string) :
  let w := loadModule e dir fs creatable docs cf rf in
  let base := baseEnvName p in
  let n := len (getEnvKeys e base) in
  default DATABASE (storage p) = MEMORY ->
  inherited_name base = true ->
  1 < n ->
  store_record w MEMORY base = Some undefined
  /\ store_record (fst (getNextEnvKey p w)) MEMORY base = Some NaN
  /\ ~ in_range n NaN
  /\ ~ cursors_in_range (fst (getNextEnvKey p w)).
Proof.
  intros w base n. subst base n. intros Hs Hq Hn.
  assert (Hbefore : store_record w MEMORY (baseEnvName p) = Some undefined).
  { apply inherited_record; [done|]. apply lookup_empty. }
  assert (Hafter : store_record (fst (getNextEnvKey p w)) MEMORY (baseEnvName p) = Some NaN).
  { rewrite getNextEnvKey_world, getNextEnvKey_try_dispatch by done. rewrite Hs.
    rewrite (handleMemoryStorage_run _ _ w Hn). simpl.
    rewrite memoryCaches_get_insert_eq.
    change (memoryCaches_get ∅ (baseEnvName p)) with (store_record w MEMORY (baseEnvName p)).
    by rewrite Hbefore. }
  assert (Hout : ~ in_range (len (getEnvKeys e (baseEnvName p))) NaN).
  { intros (z & Hz & _). discriminate Hz. }
  split; [exact Hbefore|]. split; [exact Hafter|]. split; [exact Hout|].
  intros Hinv. apply Hout.
  specialize (Hinv MEMORY (baseEnvName p) NaN).
  rewrite getNextEnvKey_env in Hinv. by apply Hinv.
Qed.

Lemma invariant_lost_for_inherited_name_witness :
  let w := loadModule [("toString1", "a"); ("toString2", "b")] "/app" ∅ true ∅
             (fun _ => None) (fun _ => None) in
  let p := mkParams "toString" (Some MEMORY) in
  store_record (fst (getNextEnvKey p w)) MEMORY "toString" = Some NaN
  /\ ~ in_range 2 NaN
  /\ ~ cursors_in_range (fst (getNextEnvKey p w)).
Proof.
  intros w p.
  assert (Hq : inherited_name (baseEnvName p) = true) by (vm_compute; reflexivity).
  assert (Hn : 1 < len (getEnvKeys [("toString1", "a"); ("toString2", "b")] (baseEnvName p)))
    by (vm_compute; reflexivity).
  exact (proj2 (invariant_lost_for_inherited_name p
                  [("toString1", "a"); ("toString2", "b")] "/app" ∅ true ∅
                  (fun _ => None) (fun _ => None) eq_refl Hq Hn)).
Defined.
